(** * A shallow embedding of the gecko code builder (gecko.go)

    Go strings are modelled as [String.string] (byte strings), byte slices as
    [list byte], unsigned integers as [N] with their wrap-around written out.
    Code that can abort ([log.Panic], a runtime panic, [os.Exit]) returns in
    the small error monad [M]. *)

From Stdlib Require Import List String Ascii Strings.Byte NArith ZArith Bool Lia.
Import ListNotations.
Open Scope string_scope.
Set Warnings "-register-all,-abstract-large-number".

(** ** Failures and the error monad *)

(** [Panic]: a [log.Panic] or a runtime panic (both unwind to the deferred
    [recover] of [main]); [Exit]: a direct [os.Exit]. Messages keep the
    source's format text; the text of wrapped Go error values is omitted. *)
Inductive failure :=
| Panic (msg : string)
| Exit (code : Z).

Definition M (A : Type) : Type := (failure + A)%type.

Definition ret {A} (a : A) : M A := inr a.
Definition fail {A} (f : failure) : M A := inl f.

Definition bind {A B} (m : M A) (k : A -> M B) : M B :=
  match m with
  | inl f => inl f
  | inr a => k a
  end.

Notation "x <- m ;; k" := (bind m (fun x => k))
  (at level 61, m at next level, right associativity).

(** ** Go string helpers *)

Definition nl : string := String (ascii_of_nat 10) "".

(** [s[i:]]: panics when [i > len(s)]. *)
Definition sliceFrom (s : string) (i : nat) : M string :=
  if Nat.leb i (String.length s)
  then ret (substring i (String.length s - i) s)
  else fail (Panic "runtime error: slice bounds out of range").

(** [s[i:j]] on a string. *)
Definition sliceStr (s : string) (i j : nat) : M string :=
  if Nat.leb i j && Nat.leb j (String.length s)
  then ret (substring i (j - i) s)
  else fail (Panic "runtime error: slice bounds out of range").

(** [strings.ToUpper] on ASCII text (addresses, hex digits): maps a-z to A-Z
    and leaves every other byte unchanged. *)
Definition upperChar (c : ascii) : ascii :=
  let n := nat_of_ascii c in
  if Nat.leb 97 n && Nat.leb n 122 then ascii_of_nat (n - 32) else c.

Fixpoint toUpper (s : string) : string :=
  match s with
  | EmptyString => EmptyString
  | String c r => String (upperChar c) (toUpper r)
  end.

(** ** strconv.ParseUint(s, 16, 32) *)

Inductive numError := ErrSyntax | ErrRange.

Definition maxUint64 : N := 2 ^ 64 - 1.
Definition maxVal32 : N := 2 ^ 32 - 1.
(** [cutoff = maxUint64/16 + 1] *)
Definition cutoff16 : N := maxUint64 / 16 + 1.

(** [lower(c) = c | ('x' - 'X')] *)
Definition goLower (c : N) : N := N.lor c 32.

(** the digit value of one character, [None] for a syntax error *)
Definition digitVal (c : ascii) : option N :=
  let cn := N_of_ascii c in
  if (48 <=? cn)%N && (cn <=? 57)%N then Some (cn - 48)%N
  else if (97 <=? goLower cn)%N && (goLower cn <=? 122)%N
  then Some (goLower cn - 97 + 10)%N
  else None.

(** the digit loop of ParseUint, base 16, bitSize 32 *)
Fixpoint parseLoop (s : string) (n : N) : N * option numError :=
  match s with
  | EmptyString => (n, None)
  | String c rest =>
      match digitVal c with
      | None => (0%N, Some ErrSyntax)
      | Some d =>
          if (16 <=? d)%N then (0%N, Some ErrSyntax)
          else if (cutoff16 <=? n)%N then (maxVal32, Some ErrRange)
          else
            let n' := ((n * 16) mod 2 ^ 64)%N in
            let n1 := ((n' + d) mod 2 ^ 64)%N in
            if (n1 <? n')%N || (maxVal32 <? n1)%N then (maxVal32, Some ErrRange)
            else parseLoop rest n1
      end
  end.

Definition parseUint (s : string) : N * option numError :=
  match s with
  | EmptyString => (0%N, Some ErrSyntax)
  | _ => parseLoop s 0
  end.

(** ** fmt's %X, %06X and %08X on unsigned integers *)

Definition hexDigitUpper (d : N) : ascii :=
  if (d <? 10)%N then ascii_of_N (48 + d) else ascii_of_N (55 + d).

(** fmt's [fmtInteger] loop: [for u >= base { buf[i] = digits[u%base]; u /= base }]
    then the last digit; [fuel] bounds the number of divisions (64 is more
    than a uint64 ever needs). *)
Fixpoint fmtLoop (fuel : nat) (u : N) (acc : string) : string :=
  match fuel with
  | O => String (hexDigitUpper u) acc
  | S f =>
      if (16 <=? u)%N
      then fmtLoop f (u / 16) (String (hexDigitUpper (u mod 16)) acc)
      else String (hexDigitUpper u) acc
  end.

Definition formatX (u : N) : string := fmtLoop 64 u "".

Fixpoint zeros (k : nat) : string :=
  match k with
  | O => EmptyString
  | S k' => String "0" (zeros k')
  end.

(** zero padding to a minimum width, as [%0<w>X] does *)
Definition padLeft (w : nat) (s : string) : string :=
  zeros (w - String.length s) ++ s.

Definition formatX06 (u : N) : string := padLeft 6 (formatX u).
Definition formatX08 (u : N) : string := padLeft 8 (formatX u).

(** ** generateReplaceCodeLine and generateBranchCodeLine *)

Definition generateReplaceCodeLine (address value : string) : M string :=
  a2 <- sliceFrom address 2 ;;
  ret ("04" ++ toUpper a2 ++ " " ++ toUpper value).

Definition u64 (x : N) : N := (x mod 2 ^ 64)%N.

(** [targetAddressUint - addressUint] on uint64 *)
Definition subU64 (x y : N) : N := u64 (x + 2 ^ 64 - y).

Definition generateBranchCodeLine (address targetAddress : string) (shouldLink : bool)
  : M string :=
  a2 <- sliceFrom address 2 ;;
  let (addressUint, _) := parseUint a2 in
  t2 <- sliceFrom targetAddress 2 ;;
  let (targetAddressUint, err) := parseUint t2 in
  match err with
  | Some _ => fail (Panic "Failed to parse address or target address.")
  | None =>
      let addressDiff := subU64 targetAddressUint addressUint in
      (* [addressDiff < 0] on a uint64 *)
      let prefix := if (addressDiff <? 0)%N then "4B" else "48" in
      let addressDiff := if shouldLink then u64 (addressDiff + 1) else addressDiff in
      let addressDiffStr := formatX06 addressDiff in
      addressDiffStr <- sliceStr addressDiffStr (String.length addressDiffStr - 6)
                                 (String.length addressDiffStr) ;;
      a2' <- sliceFrom address 2 ;;
      ret ("04" ++ toUpper a2' ++ " " ++ prefix ++ addressDiffStr)
  end.

Definition addLineAnnotation (line annotation : string) : string :=
  if String.eqb annotation "" then line else line ++ " #" ++ annotation.

(** ** encoding/hex *)

(** [hex.EncodeToString]: two lower-case digits per byte *)
Definition hexDigitLower (d : N) : ascii :=
  if (d <? 10)%N then ascii_of_N (48 + d) else ascii_of_N (87 + d).

Fixpoint hexEncodeToString (bs : list byte) : string :=
  match bs with
  | [] => EmptyString
  | b :: rest =>
      String (hexDigitLower (Byte.to_N b / 16)) (String (hexDigitLower (Byte.to_N b mod 16))
        (hexEncodeToString rest))
  end.

Inductive hexError :=
| InvalidByteError (c : ascii)
| ErrLength.

Definition fromHexChar (c : ascii) : option N :=
  let n := N_of_ascii c in
  if (48 <=? n)%N && (n <=? 57)%N then Some (n - 48)%N
  else if (97 <=? n)%N && (n <=? 102)%N then Some (n - 87)%N
  else if (65 <=? n)%N && (n <=? 70)%N then Some (n - 55)%N
  else None.

Definition byteOfN (n : N) : byte :=
  match Byte.of_N n with
  | Some b => b
  | None => x00
  end.

(** [hex.DecodeString]: pairs of digits, left to right; an odd trailing
    digit is [ErrLength] once it is itself a valid digit. *)
Fixpoint hexDecodeString (s : string) : hexError + list byte :=
  match s with
  | EmptyString => inr []
  | String p EmptyString =>
      match fromHexChar p with
      | None => inl (InvalidByteError p)
      | Some _ => inl ErrLength
      end
  | String p (String q rest) =>
      match fromHexChar p, fromHexChar q with
      | None, _ => inl (InvalidByteError p)
      | _, None => inl (InvalidByteError q)
      | Some a, Some b =>
          match hexDecodeString rest with
          | inl e => inl e
          | inr bs => inr (byteOfN (a * 16 + b) :: bs)
          end
      end
  end.

(** ** Padding of instruction byte slices *)

(** gecko.go:301-306, the padding of an injection (C2) code *)
Definition injectPad (instructions : list byte) : list byte :=
  if Nat.eqb (List.length instructions mod 8) 0
  then instructions ++ [x60; x00; x00; x00; x00; x00; x00; x00]
  else instructions ++ [x00; x00; x00; x00].

(** gecko.go:325-328 and 352-355, the padding of a block replace (06) code *)
Definition blockPad (instructions : list byte) : list byte :=
  if negb (Nat.eqb (List.length instructions mod 8) 0)
  then instructions ++ [x60; x00; x00; x00]
  else instructions.

(** ** The record loop

    [instructions[i:j]] is legal in Go up to the slice's capacity, not its
    length: [spare] is the content of the backing array between the length
    and the capacity of the padded slice. *)
Definition sliceBytes (s spare : list byte) (i j : nat) : M (list byte) :=
  if Nat.leb i j && Nat.leb j (List.length s + List.length spare)
  then ret (firstn (j - i) (skipn i (s ++ spare)))
  else fail (Panic "runtime error: slice bounds out of range").

Definition recordLine (left right : list byte) : string :=
  toUpper (hexEncodeToString left) ++ " " ++ toUpper (hexEncodeToString right).

(** [for i := 0; i < len(instructions); i += 8 { ... }]; [fuel] counts the
    iterations left ([len(instructions)] is always enough). *)
Fixpoint recordLoop (s spare : list byte) (fuel i : nat) : M (list string) :=
  match fuel with
  | O => ret []
  | S f =>
      if Nat.ltb i (List.length s)
      then
        left <- sliceBytes s spare i (i + 4) ;;
        right <- sliceBytes s spare (i + 4) (i + 8) ;;
        rest <- recordLoop s spare f (i + 8) ;;
        ret (recordLine left right :: rest)
      else ret []
  end.

Definition recordLines (s spare : list byte) : M (list string) :=
  recordLoop s spare (List.length s) 0.

(** [err.Error()] of an [encoding/hex] error: [InvalidByteError] prints the
    byte with [%#U] (code point, then the quoted character when printable). *)
Definition hexErrorText (e : hexError) : string :=
  match e with
  | ErrLength => "encoding/hex: odd length hex string"
  | InvalidByteError c =>
      let n := N_of_ascii c in
      let quoted :=
        if (32 <=? n)%N && (n <? 127)%N then " '" ++ String c "" ++ "'"
        else if (161 <=? n)%N && negb (n =? 173)%N
        then " '" ++ String (ascii_of_N (N.lor 192 (n / 64)))
                      (String (ascii_of_N (N.lor 128 (n mod 64))) "") ++ "'"
        else "" in
      "encoding/hex: invalid byte: U+" ++ padLeft 4 (formatX n) ++ quoted
  end.

(** ** Configuration (codes.json) *)

Record GeckoCode := {
  Type_ : string;
  Address : string;
  TargetAddress : string;
  Annotation : string;
  IsRecursive : bool;
  SourceFile : string;
  SourceFolder : string;
  Value : string
}.

Record CodeDescription := {
  Name : string;
  Authors : list string;
  Description : list string;
  Build : list GeckoCode
}.

Record Config := {
  OutputFiles : list string;
  Codes : list CodeDescription
}.

Definition Replace : string := "replace".
Definition Inject : string := "inject".
Definition ReplaceCodeBlock : string := "replaceCodeBlock".
Definition Branch : string := "branch".
Definition BranchAndLink : string := "branchAndLink".
Definition InjectFolder : string := "injectFolder".
Definition ReplaceBinary : string := "replaceBinary".

(** ** The environment of a run

    A directory listed by [ioutil.ReadDir] is given with the tree below it:
    an entry is a file (its bytes, [None] when it cannot be opened) or a
    directory (its entries in the order ReadDir returns them, [None] when it
    cannot be read). *)
Inductive node :=
| NFile (data : option (list byte))
| NDir (entries : option (list (string * node))).

Record World := {
  (** [ioutil.ReadFile] *)
  readFile : string -> option (list byte);
  (** [ioutil.ReadDir] of a folder named in the configuration *)
  readDir : string -> option (list (string * node));
  (** the external assembler and section extraction run on the contents of
      the temporary file; [None] when a tool exits non-zero *)
  assemble : list byte -> option (list byte);
  (** backing-array content past the length of a padded instruction slice *)
  spareCapacity : list byte;
  (** codes.json, read and unmarshalled; [None] when either step fails *)
  configFile : option Config;
  (** whether [ioutil.WriteFile] succeeds on a path *)
  writable : string -> bool
}.

(** ** filepath.Ext and the first line read by bufio.Scanner *)

(** the suffix from the last '.' after the last '/' *)
Fixpoint extLoop (s best : string) : string :=
  match s with
  | EmptyString => best
  | String c r =>
      if Ascii.eqb c "/" then extLoop r ""
      else if Ascii.eqb c "." then extLoop r (String c r)
      else extLoop r best
  end.

Definition ext (path : string) : string := extLoop path "".

Fixpoint indexByte (b : byte) (l : list byte) : option nat :=
  match l with
  | [] => None
  | c :: r =>
      if Byte.eqb c b then Some 0
      else match indexByte b r with Some k => Some (S k) | None => None end
  end.

(** [bufio.dropCR] *)
Definition dropCR (l : list byte) : list byte :=
  match rev l with
  | x0d :: r => rev r
  | _ => l
  end.

(** [bufio.MaxScanTokenSize]: the buffer never grows past it *)
Definition maxTokenSize : nat := 65536.

(** [scanner.Scan(); scanner.Text()] with [bufio.ScanLines]: the bytes up to
    the first newline (found only while the buffer can hold it), or the whole
    file when it has no newline and fits the buffer; the text is empty when
    Scan fails (too long, unreadable, empty). *)
Definition scanFirstLine (d : list byte) : string :=
  string_of_list_byte
    match indexByte x0a d with
    | Some k => if Nat.ltb k maxTokenSize then dropCR (firstn k d) else []
    | None => if Nat.ltb (List.length d) maxTokenSize then dropCR d else []
    end.

(** ** Compilation and the code generators *)

Section Generators.

(** [filepath.Join] *)
Variable join : string -> string -> string.

(** [compile(file)] once [ioutil.ReadFile(file)] has returned [asmContents]:
    a CR LF is appended before the assembler runs; a failing tool exits 1. *)
Definition compileContents (w : World) (file : string) (asmContents : option (list byte))
  : M (list byte) :=
  match asmContents with
  | None => fail (Panic ("Failed to read asm file: " ++ file ++ nl))
  | Some contents =>
      match assemble w (contents ++ [x0d; x0a])%list with
      | None => fail (Exit 1)
      | Some code => ret code
      end
  end.

Definition compile (w : World) (file : string) : M (list byte) :=
  compileContents w file (readFile w file).

(** gecko.go:286-316, after [compile] has returned [instructions] *)
Definition injectionCodeLinesFrom (w : World) (address file : string)
  (instructions : list byte) : M (list string) :=
  let instructionLen := List.length instructions in
  if Nat.eqb instructionLen 0 then
    fail (Panic ("Did not find any code in file: " ++ file ++ nl))
  else if Nat.eqb instructionLen 4 then
    let instructionStr := hexEncodeToString (firstn 4 instructions) in
    replaceLine <- generateReplaceCodeLine address instructionStr ;;
    ret [replaceLine]
  else
    let instructions := injectPad instructions in
    a2 <- sliceFrom address 2 ;;
    let header := "C2" ++ toUpper a2 ++ " "
                  ++ formatX08 (N.of_nat (List.length instructions / 8)) in
    lines <- recordLines instructions (spareCapacity w) ;;
    ret (header :: lines).

Definition generateInjectionCodeLinesWith (w : World) (address file : string)
  (asmContents : option (list byte)) : M (list string) :=
  instructions <- compileContents w file asmContents ;;
  injectionCodeLinesFrom w address file instructions.

Definition generateInjectionCodeLines (w : World) (address file : string) : M (list string) :=
  generateInjectionCodeLinesWith w address file (readFile w file).

(** the common tail of generateReplaceCodeBlockLines and generateReplaceBinaryLines *)
Definition blockLinesFrom (w : World) (address : string) (instructions : list byte)
  : M (list string) :=
  let instructions := blockPad instructions in
  a2 <- sliceFrom address 2 ;;
  let header := "06" ++ toUpper a2 ++ " " ++ formatX08 (N.of_nat (List.length instructions)) in
  lines <- recordLines instructions (spareCapacity w) ;;
  ret (header :: lines).

Definition generateReplaceCodeBlockLines (w : World) (address file : string) : M (list string) :=
  instructions <- compile w file ;;
  blockLinesFrom w address instructions.

Definition generateReplaceBinaryLines (w : World) (address file : string) : M (list string) :=
  contents <- match readFile w file with
              | None => fail (Panic ("Failed to read binary file " ++ file ++ nl))
              | Some c => ret c
              end ;;
  blockLinesFrom w address contents.

(** [lines[0] = addLineAnnotation(lines[0], annotation)] *)
Definition annotateFirst (lines : list string) (annotation : string) : M (list string) :=
  match lines with
  | [] => fail (Panic "runtime error: index out of range")
  | l :: rest => ret (addLineAnnotation l annotation :: rest)
  end.

Definition addressErrorText (filePath extra : string) : string :=
  "File at " ++ filePath ++ " needs to specify the 4 byte injection address "
  ++ "at the end of the first line of the file" ++ nl ++ extra.

(** one [.asm] entry of generateInjectionFolderLines (gecko.go:217-261) *)
Definition asmEntryLines (w : World) (folder name : string) (entry : node)
  : M (list string) :=
  let filePath := join folder name in
  opened <- match entry with
            | NFile (Some d) => ret (Some d)
            | NDir (Some _) => ret None
            | _ => fail (Panic ("Failed to read file at " ++ filePath ++ nl))
            end ;;
  let firstLine := match opened with Some d => scanFirstLine d | None => "" end in
  let lineLength := String.length firstLine in
  if Nat.ltb lineLength 8 then fail (Panic (addressErrorText filePath ""))
  else
    let address := substring (lineLength - 8) 8 firstLine in
    match hexDecodeString address with
    | inl e => fail (Panic (addressErrorText filePath (hexErrorText e ++ nl)))
    | inr _ =>
        fileLines <- generateInjectionCodeLinesWith w address filePath opened ;;
        annotateFirst fileLines filePath
    end.

(** the first loop of generateInjectionFolderLines *)
Fixpoint asmFilesLines (w : World) (folder : string) (contents : list (string * node))
  : M (list string) :=
  match contents with
  | [] => ret []
  | (name, entry) :: rest =>
      if String.eqb (ext name) ".asm" then
        l <- asmEntryLines w folder name entry ;;
        r <- asmFilesLines w folder rest ;;
        ret (l ++ r)%list
      else asmFilesLines w folder rest
  end.

(** generateInjectionFolderLines on a listed directory *)
Fixpoint folderLines (w : World) (folder : string) (dir : node) (isRecursive : bool)
  {struct dir} : M (list string) :=
  match dir with
  | NFile _ | NDir None => fail (Panic "Failed to read directory.")
  | NDir (Some contents) =>
      lines <- asmFilesLines w folder contents ;;
      if isRecursive then
        folderLinesSub <-
          (fix subdirs (cs : list (string * node)) : M (list string) :=
             match cs with
             | [] => ret []
             | (name, entry) :: rest =>
                 match entry with
                 | NDir _ =>
                     l <- folderLines w (join folder name) entry isRecursive ;;
                     r <- subdirs rest ;;
                     ret (l ++ r)%list
                 | NFile _ => subdirs rest
                 end
             end) contents ;;
        ret (lines ++ folderLinesSub)%list
      else ret lines
  end.

Definition generateInjectionFolderLines (w : World) (folder : string) (isRecursive : bool)
  : M (list string) :=
  match readDir w folder with
  | None => fail (Panic "Failed to read directory.")
  | Some contents => folderLines w folder (NDir (Some contents)) isRecursive
  end.

(** one iteration of the switch in generateCodeLines *)
Definition geckoCodeLines (w : World) (geckoCode : GeckoCode) : M (list string) :=
  let t := Type_ geckoCode in
  if String.eqb t Replace then
    line <- generateReplaceCodeLine (Address geckoCode) (Value geckoCode) ;;
    ret [addLineAnnotation line (Annotation geckoCode)]
  else if String.eqb t Inject then
    lines <- generateInjectionCodeLines w (Address geckoCode) (SourceFile geckoCode) ;;
    annotateFirst lines (Annotation geckoCode)
  else if String.eqb t ReplaceCodeBlock then
    lines <- generateReplaceCodeBlockLines w (Address geckoCode) (SourceFile geckoCode) ;;
    annotateFirst lines (Annotation geckoCode)
  else if String.eqb t ReplaceBinary then
    lines <- generateReplaceBinaryLines w (Address geckoCode) (SourceFile geckoCode) ;;
    annotateFirst lines (Annotation geckoCode)
  else if String.eqb t Branch || String.eqb t BranchAndLink then
    let shouldLink := String.eqb t BranchAndLink in
    line <- generateBranchCodeLine (Address geckoCode) (TargetAddress geckoCode) shouldLink ;;
    ret [addLineAnnotation line (Annotation geckoCode)]
  else if String.eqb t InjectFolder then
    generateInjectionFolderLines w (SourceFolder geckoCode) (IsRecursive geckoCode)
  else ret [].

Fixpoint codeLinesLoop (w : World) (codes : list GeckoCode) : M (list string) :=
  match codes with
  | [] => ret []
  | g :: rest =>
      lines <- geckoCodeLines w g ;;
      r <- codeLinesLoop w rest ;;
      ret (lines ++ r)%list
  end.

Definition generateCodeLines (w : World) (desc : CodeDescription) : M (list string) :=
  codeLinesLoop w (Build desc).

Definition generateHeaderLines (desc : CodeDescription) : list string :=
  ("$" ++ Name desc ++ " [" ++ String.concat ", " (Authors desc) ++ "]")
    :: map (fun line => "*" ++ line) (Description desc).

(** buildBody appends to the global [output], empty before the call *)
Fixpoint buildBody (w : World) (codes : list CodeDescription) : M (list string) :=
  match codes with
  | [] => ret []
  | code :: rest =>
      codeLines <- generateCodeLines w code ;;
      r <- buildBody w rest ;;
      ret (generateHeaderLines code ++ codeLines ++ [""] ++ r)%list
  end.

End Generators.

(** ** Output *)

Definition gctHeader : list byte := [x00; xd0; xc0; xde; x00; xd0; xc0; xde].
Definition gctFooter : list byte := [xf0; x00; x00; x00; x00; x00; x00; x00].

(** the loop of writeGctOutput *)
Fixpoint gctLoop (output : list string) (gctBytes : list byte) : list byte :=
  match output with
  | [] => gctBytes
  | line :: rest =>
      if Nat.ltb (String.length line) 17 then gctLoop rest gctBytes
      else
        match hexDecodeString (substring 0 8 line ++ substring 9 8 line) with
        | inl _ => gctLoop rest gctBytes
        | inr lineBytes => gctLoop rest (gctBytes ++ lineBytes)%list
        end
  end.

(** the bytes writeGctOutput hands to [ioutil.WriteFile] *)
Definition gctOutputBytes (output : list string) : list byte :=
  (gctLoop output gctHeader ++ gctFooter)%list.

(** the bytes writeTextOutput hands to [ioutil.WriteFile] *)
Definition textOutputBytes (output : list string) : list byte :=
  list_byte_of_string (String.concat nl output).

(** writeOutput: the file written, if [ioutil.WriteFile] succeeds (its error
    is not checked) *)
Definition writeOutput (w : World) (output : list string) (outputFile : string)
  : list (string * list byte) :=
  let bytes := if String.eqb (ext outputFile) ".gct" then gctOutputBytes output
               else textOutputBytes output in
  if writable w outputFile then [(outputFile, bytes)] else [].

(** ** main *)

Record Outcome := {
  exitStatus : Z;
  writtenFiles : list (string * list byte)
}.

Definition readConfigFile (w : World) : M Config :=
  match configFile w with
  | None => fail (Panic ("Failed to read config file codes.json" ++ nl))
  | Some c => ret c
  end.

(** main up to the output loop: the argument checks, the configuration and
    buildBody *)
Definition runBuild (join : string -> string -> string) (args : list string) (w : World)
  : M (Config * list string) :=
  if Nat.ltb (List.length args) 2 then
    fail (Panic ("Must provide a command. Try typing 'gecko build'" ++ nl))
  else if negb (String.eqb (nth 1 args "") "build") then
    fail (Panic ("Currently only the build command is supported. Try typing 'gecko build'" ++ nl))
  else
    config <- readConfigFile w ;;
    if Nat.ltb (List.length (OutputFiles config)) 1 then
      fail (Panic ("Must have at least one output file configured in the outputFiles field" ++ nl))
    else
      output <- buildBody join w (Codes config) ;;
      ret (config, output).

(** [main]: a panic unwinds to the deferred [recover()], after which main
    returns normally (exit status 0); [os.Exit(code)] ends the process at
    once. *)
Definition main (join : string -> string -> string) (args : list string) (w : World) : Outcome :=
  match runBuild join args w with
  | inl (Panic _) => {| exitStatus := 0; writtenFiles := [] |}
  | inl (Exit code) => {| exitStatus := code; writtenFiles := [] |}
  | inr (config, output) =>
      {| exitStatus := 0;
         writtenFiles := flat_map (writeOutput w output) (OutputFiles config) |}
  end.

(** * Reference definitions for the properties *)

(** consecutive 8-byte records of a byte sequence, one line each (a shorter
    tail is dropped) *)
Fixpoint records8 (l : list byte) : list string :=
  match l with
  | b0 :: b1 :: b2 :: b3 :: b4 :: b5 :: b6 :: b7 :: rest =>
      recordLine [b0; b1; b2; b3] [b4; b5; b6; b7] :: records8 rest
  | _ => []
  end.

(** [k] upper-case hex digits of [u mod 16^k] *)
Fixpoint hexFixed (k : nat) (u : N) : string :=
  match k with
  | O => EmptyString
  | S k' => (hexFixed k' (u / 16) ++ String (hexDigitUpper (u mod 16)) "")%string
  end.

(** the text of an address whose digits parse to the value ParseUint
    returns next to error [e] *)
Definition baseValueText (e : numError) : string :=
  match e with
  | ErrSyntax => "0"
  | ErrRange => "FFFFFFFF"
  end.

(** the two 4-byte fields of a code line, as the GCT format describes them:
    a line of at least 17 characters whose characters [0,8) and [9,17) are
    each valid hex *)
Definition gctFields (line : string) : option (list byte) :=
  if Nat.ltb (String.length line) 17 then None
  else
    match hexDecodeString (substring 0 8 line), hexDecodeString (substring 9 8 line) with
    | inr a, inr b => Some (a ++ b)%list
    | _, _ => None
    end.

Definition gctRecord (line : string) : list byte :=
  match gctFields line with
  | Some b => b
  | None => []
  end.

Definition isCodeLine (line : string) : bool :=
  match gctFields line with
  | Some _ => true
  | None => false
  end.

(** the results of a list of generators, concatenated in order; the first
    failure ends the sequence *)
Fixpoint concatM (ms : list (M (list string))) : M (list string) :=
  match ms with
  | [] => ret []
  | m :: rest =>
      l <- m ;;
      r <- concatM rest ;;
      ret (l ++ r)%list
  end.

Definition isAsmEntry (e : string * node) : bool := String.eqb (ext (fst e)) ".asm".

Definition isDirEntry (e : string * node) : bool :=
  match snd e with
  | NDir _ => true
  | NFile _ => false
  end.




(** the only exit code besides a recovered panic is 1 *)
Definition exitCodeOk (f : failure) : Prop :=
  match f with
  | Panic _ => True
  | Exit c => c = 1%Z
  end.

Definition okM {A} (m : M A) : Prop :=
  match m with
  | inl f => exitCodeOk f
  | inr _ => True
  end.

(** induction on a directory tree, with a hypothesis for every entry of a
    listed directory *)
Fixpoint node_ind_nested (P : node -> Prop) (Pfile : forall d, P (NFile d))
  (Pnone : P (NDir None))
  (Pdir : forall cs, Forall (fun e => P (snd e)) cs -> P (NDir (Some cs)))
  (n : node) {struct n} : P n :=
  match n with
  | NFile d => Pfile d
  | NDir None => Pnone
  | NDir (Some cs) =>
      Pdir cs
        ((fix go (cs : list (string * node)) : Forall (fun e => P (snd e)) cs :=
            match cs with
            | [] => @Forall_nil _ (fun e => P (snd e))
            | (name, e) :: rest =>
                @Forall_cons _ (fun e => P (snd e)) (name, e) rest
                  (node_ind_nested P Pfile Pnone Pdir e) (go rest)
            end) cs)
  end.

(** [k] bytes of [u mod 256^k], most significant first *)
Fixpoint beBytes (k : nat) (u : N) : list byte :=
  match k with
  | O => []
  | S k' => (beBytes k' (u / 256) ++ [byteOfN (u mod 256)])%list
  end.

(** the value of a string of hex digits read after [n], [None] when a
    character is not one *)
Fixpoint hexValueFrom (s : string) (n : N) : option N :=
  match s with
  | EmptyString => Some n
  | String c r =>
      match fromHexChar c with
      | None => None
      | Some d => hexValueFrom r (n * 16 + d)%N
      end
  end.

Definition hexValue (s : string) : option N := hexValueFrom s 0.

(** whether a string contains none of the given characters *)
Definition noneOf (cs : list ascii) (s : string) : bool :=
  forallb (fun c => negb (existsb (Ascii.eqb c) cs)) (list_ascii_of_string s).

(** a text split at every line feed *)
Fixpoint splitNL (s : string) : list string :=
  match s with
  | EmptyString => [""]
  | String c r =>
      if Ascii.eqb c (ascii_of_nat 10) then "" :: splitNL r
      else match splitNL r with
           | [] => [String c ""]
           | x :: xs => String c x :: xs
           end
  end.

(** ** Sample environments *)

Definition slashJoin (a b : string) : string := a ++ "/" ++ b.

(** one byte of code, and of binary file; zeroed capacity past the slices *)
Definition oddWorld : World := {|
  readFile := fun _ => Some [x01];
  readDir := fun _ => None;
  assemble := fun _ => Some [x01];
  spareCapacity := repeat x00 7;
  configFile := None;
  writable := fun _ => true
|}.

(** two instructions: li r3, 1; blr *)
Definition blrCode : list byte := [x38; x60; x00; x01; x4e; x80; x00; x20].

Definition asmSource : list byte :=
  list_byte_of_string ("# inject at 80001234" ++ nl ++ "li r3, 1" ++ nl ++ "blr" ++ nl).

Definition folderEntries : list (string * node) :=
  [("a.asm", NFile (Some asmSource)); ("sub.asm", NDir (Some []))].

Definition folderWorld : World := {|
  readFile := fun _ => Some asmSource;
  readDir := fun p => if String.eqb p "f" then Some folderEntries else None;
  assemble := fun _ => Some blrCode;
  spareCapacity := [];
  configFile := None;
  writable := fun _ => true
|}.

(** a binary file and an assembler output of two instructions *)
Definition blrWorld : World := {|
  readFile := fun _ => Some blrCode;
  readDir := fun _ => None;
  assemble := fun _ => Some blrCode;
  spareCapacity := [];
  configFile := None;
  writable := fun _ => true
|}.

(** a configuration with one Inject code, and an assembler that fails *)
Definition injectCode : GeckoCode := {|
  Type_ := "inject"; Address := "80001234"; TargetAddress := ""; Annotation := "";
  IsRecursive := false; SourceFile := "f.asm"; SourceFolder := ""; Value := ""
|}.

Definition exitWorld : World := {|
  readFile := fun _ => Some asmSource;
  readDir := fun _ => None;
  assemble := fun _ => None;
  spareCapacity := [];
  configFile := Some {| OutputFiles := ["codes.gct"];
                        Codes := [{| Name := "Test"; Authors := ["A"]; Description := [];
                                     Build := [injectCode] |}] |};
  writable := fun _ => true
|}.

(** code types, a world and a configuration for the extra properties *)

Definition blrInject : GeckoCode := {|
  Type_ := "inject"; Address := "80001234"; TargetAddress := ""; Annotation := "two";
  IsRecursive := false; SourceFile := "f.asm"; SourceFolder := ""; Value := ""
|}.

Definition blrBinary : GeckoCode := {|
  Type_ := "replaceBinary"; Address := "80001234"; TargetAddress := ""; Annotation := "";
  IsRecursive := false; SourceFile := "b.bin"; SourceFolder := ""; Value := ""
|}.

Definition liReplace : GeckoCode := {|
  Type_ := "replace"; Address := "80001234"; TargetAddress := ""; Annotation := "li";
  IsRecursive := false; SourceFile := ""; SourceFolder := ""; Value := "38600001"
|}.

Definition backLink : GeckoCode := {|
  Type_ := "branchAndLink"; Address := "80001000"; TargetAddress := "80000000"; Annotation := "";
  IsRecursive := false; SourceFile := ""; SourceFolder := ""; Value := ""
|}.

Definition gctWorld : World := {|
  readFile := fun _ => Some blrCode;
  readDir := fun _ => None;
  assemble := fun _ => Some blrCode;
  spareCapacity := [];
  configFile := Some {| OutputFiles := ["codes.gct"; "codes.txt"];
                        Codes := [{| Name := "Test"; Authors := ["A"]; Description := ["d"];
                                     Build := [blrInject; liReplace] |}] |};
  writable := fun _ => true
|}.

(** * Properties *)

(** ** Strings *)

Lemma str_app_assoc (a b c : string) : ((a ++ b) ++ c)%string = (a ++ (b ++ c))%string.
Proof. induction a as [|x a IH]; simpl; [reflexivity | now rewrite IH]. Qed.

Lemma str_app_nil_r (a : string) : (a ++ "")%string = a.
Proof. induction a as [|x a IH]; simpl; [reflexivity | now rewrite IH]. Qed.

Lemma str_length_app (a b : string) :
  String.length (a ++ b) = String.length a + String.length b.
Proof. induction a as [|x a IH]; simpl; [reflexivity | now rewrite IH]. Qed.

Lemma substring_whole (s : string) : substring 0 (String.length s) s = s.
Proof. induction s as [|x s IH]; simpl; [reflexivity | now rewrite IH]. Qed.

Lemma substring_app_r (a b : string) :
  substring (String.length a) (String.length b) (a ++ b) = b.
Proof.
  induction a as [|x a IH]; simpl; [apply substring_whole | exact IH].
Qed.

Lemma zeros_snoc (k : nat) : (zeros k ++ "0")%string = String "0" (zeros k).
Proof. induction k as [|k IH]; simpl; [reflexivity | now rewrite IH]. Qed.

Lemma zeros_length (k : nat) : String.length (zeros k) = k.
Proof. induction k as [|k IH]; simpl; auto. Qed.

(** ** Hexadecimal formatting *)

Lemma hexFixed_length (k : nat) (u : N) : String.length (hexFixed k u) = k.
Proof.
  revert u; induction k as [|k IH]; intro u; simpl; [reflexivity|].
  rewrite str_length_app, IH; simpl; lia.
Qed.

Lemma hexFixed_zero (k : nat) : hexFixed k 0 = zeros k.
Proof.
  induction k as [|k IH]; [reflexivity|].
  cbn [hexFixed zeros]. change (0 / 16)%N with 0%N. change (0 mod 16)%N with 0%N.
  rewrite IH. apply zeros_snoc.
Qed.

Lemma hexFixed_mod (k : nat) (u : N) : hexFixed k u = hexFixed k (u mod 16 ^ N.of_nat k).
Proof.
  revert u; induction k as [|k IH]; intro u; [reflexivity|].
  cbn [hexFixed].
  rewrite Nat2N.inj_succ, N.pow_succ_r', N.Div0.mod_mul_r.
  assert (Hd : ((u mod 16 + 16 * (u / 16 mod 16 ^ N.of_nat k)) mod 16 = u mod 16)%N).
  { rewrite (N.mul_comm 16), N.Div0.mod_add, N.Div0.mod_mod; reflexivity. }
  assert (Hq : ((u mod 16 + 16 * (u / 16 mod 16 ^ N.of_nat k)) / 16
                = u / 16 mod 16 ^ N.of_nat k)%N).
  { rewrite (N.mul_comm 16), N.div_add by lia.
    rewrite N.div_small by (apply N.mod_lt; lia). lia. }
  rewrite Hd, Hq, <- IH. reflexivity.
Qed.

Lemma fmtLoop_acc (f : nat) (u : N) (acc : string) :
  fmtLoop f u acc = (fmtLoop f u "" ++ acc)%string.
Proof.
  revert u acc; induction f as [|f IH]; intros u acc; simpl; [reflexivity|].
  destruct (16 <=? u)%N; [|reflexivity].
  rewrite IH, (IH _ (String _ "")), str_app_assoc. reflexivity.
Qed.

Lemma fmtLoop_fuel (f : nat) (u : N) (acc : string) :
  (u < 16 ^ N.of_nat f)%N -> fmtLoop f u acc = fmtLoop (S f) u acc.
Proof.
  revert u acc; induction f as [|f IH]; intros u acc Hu.
  - simpl in Hu. assert (u = 0%N) by lia. subst. reflexivity.
  - change (fmtLoop (S (S f)) u acc) with
      (if (16 <=? u)%N then fmtLoop (S f) (u / 16) (String (hexDigitUpper (u mod 16)) acc)
       else String (hexDigitUpper u) acc).
    simpl. destruct (16 <=? u)%N eqn:E; [|reflexivity].
    apply IH. rewrite Nat2N.inj_succ, N.pow_succ_r' in Hu.
    apply N.Div0.div_lt_upper_bound. lia.
Qed.

Lemma formatX_small (u : N) : (u < 16)%N -> formatX u = String (hexDigitUpper u) "".
Proof.
  intro H. unfold formatX.
  change (fmtLoop 64 u "") with
    (if (16 <=? u)%N then fmtLoop 63 (u / 16) (String (hexDigitUpper (u mod 16)) "")
     else String (hexDigitUpper u) "").
  destruct (16 <=? u)%N eqn:E; [apply N.leb_le in E; lia|]. reflexivity.
Qed.

Lemma formatX_step (u : N) :
  (16 <= u)%N -> (u < 16 ^ 64)%N ->
  formatX u = (formatX (u / 16) ++ String (hexDigitUpper (u mod 16)) "")%string.
Proof.
  intros H1 H2. unfold formatX.
  change (fmtLoop 64 u "") with
    (if (16 <=? u)%N then fmtLoop 63 (u / 16) (String (hexDigitUpper (u mod 16)) "")
     else String (hexDigitUpper u) "").
  replace (16 <=? u)%N with true by (symmetry; apply N.leb_le; exact H1).
  rewrite fmtLoop_acc, fmtLoop_fuel; [reflexivity|].
  apply N.Div0.div_lt_upper_bound. change (N.of_nat 63) with 63%N.
  rewrite <- N.pow_succ_r' by lia. exact H2.
Qed.

Lemma formatX_split (k : nat) (u : N) :
  (16 ^ N.of_nat k <= u)%N -> (u < 16 ^ 64)%N ->
  formatX u = (formatX (u / 16 ^ N.of_nat k) ++ hexFixed k u)%string.
Proof.
  revert u; induction k as [|k IH]; intros u H1 H2.
  - simpl. rewrite N.div_1_r, str_app_nil_r. reflexivity.
  - rewrite Nat2N.inj_succ, N.pow_succ_r' in *.
    assert (16 <= u)%N by (pose proof (N.pow_nonzero 16 (N.of_nat k)); lia).
    rewrite formatX_step by lia.
    rewrite (IH (u / 16)%N).
    + cbn [hexFixed]. rewrite N.Div0.div_div, str_app_assoc. reflexivity.
    + apply N.div_le_lower_bound; lia.
    + apply N.Div0.div_lt_upper_bound. lia.
Qed.

Lemma padLeft_formatX (k : nat) (u : N) :
  (u < 16 ^ N.of_nat (S k))%N -> (u < 16 ^ 64)%N ->
  padLeft (S k) (formatX u) = hexFixed (S k) u.
Proof.
  revert u; induction k as [|k IH]; intros u Hu Hb.
  - simpl in Hu. rewrite formatX_small by lia. unfold padLeft. cbn [hexFixed].
    rewrite N.mod_small by lia. reflexivity.
  - destruct (N.lt_ge_cases u 16) as [Hs|Hs].
    + rewrite formatX_small by lia. unfold padLeft. simpl String.length.
      change (hexFixed (S (S k)) u)
        with (hexFixed (S k) (u / 16) ++ String (hexDigitUpper (u mod 16)) "")%string.
      rewrite (N.div_small u 16 Hs), (N.mod_small u 16 Hs).
      rewrite hexFixed_zero.
      replace (S (S k) - 1) with (S k) by lia. reflexivity.
    + rewrite formatX_step by lia.
      set (x := formatX (u / 16)).
      assert (IHx : padLeft (S k) x = hexFixed (S k) (u / 16)).
      { apply IH.
        - apply N.Div0.div_lt_upper_bound.
          rewrite (Nat2N.inj_succ (S k)), N.pow_succ_r' in Hu. lia.
        - apply N.Div0.div_lt_upper_bound. lia. }
      unfold padLeft in *. rewrite str_length_app. simpl String.length.
      replace (S (S k) - (String.length x + 1)) with (S k - String.length x) by lia.
      change (hexFixed (S (S k)) u)
        with (hexFixed (S k) (u / 16) ++ String (hexDigitUpper (u mod 16)) "")%string.
      rewrite <- IHx, str_app_assoc. reflexivity.
Qed.

Lemma fmtLoop_length (f : nat) (u : N) (acc : string) :
  S (String.length acc) <= String.length (fmtLoop f u acc).
Proof.
  revert u acc; induction f as [|f IH]; intros u acc; simpl; [lia|].
  destruct (16 <=? u)%N; simpl; [|lia].
  specialize (IH (u / 16)%N (String (hexDigitUpper (u mod 16)) acc)). simpl in IH. lia.
Qed.

(** [addressDiffStr[len(addressDiffStr)-6:]] of [%06X] is the low 24 bits *)
Lemma last6_formatX06 (u : N) :
  (u < 2 ^ 64)%N ->
  sliceStr (formatX06 u) (String.length (formatX06 u) - 6) (String.length (formatX06 u))
  = ret (hexFixed 6 u).
Proof.
  intro Hu. assert (Hb : (u < 16 ^ 64)%N) by (eapply N.lt_le_trans; [exact Hu|]; vm_compute; discriminate).
  unfold formatX06, sliceStr.
  destruct (N.lt_ge_cases u (16 ^ N.of_nat 6)) as [Hs|Hs].
  - rewrite (padLeft_formatX 5 u Hs Hb).
    generalize (hexFixed_length 6 u). generalize (hexFixed 6 u). intros s Hl.
    rewrite Hl. simpl. rewrite <- Hl, substring_whole. reflexivity.
  - rewrite (formatX_split 6 u Hs Hb).
    assert (Hx : 1 <= String.length (formatX (u / 16 ^ N.of_nat 6)))
      by apply (fmtLoop_length 64 _ "").
    generalize (hexFixed_length 6 u). generalize (hexFixed 6 u).
    generalize dependent (formatX (u / 16 ^ N.of_nat 6)). intros x Hx h Hh.
    assert (Hp : padLeft 6 (x ++ h) = (x ++ h)%string).
    { unfold padLeft. rewrite str_length_app, Hh.
      replace (6 - (String.length x + 6)) with 0 by lia. reflexivity. }
    rewrite Hp, str_length_app, Hh.
    replace (String.length x + 6 - 6) with (String.length x) by lia.
    rewrite (proj2 (Nat.leb_le (String.length x) (String.length x + 6))) by lia.
    rewrite Nat.leb_refl. cbn [andb].
    replace (String.length x + 6 - String.length x) with (String.length h) by lia.
    rewrite substring_app_r. reflexivity.
Qed.

Lemma u64_lt (x : N) : (u64 x < 2 ^ 64)%N.
Proof. unfold u64. apply N.mod_lt. discriminate. Qed.

(** generateBranchCodeLine in closed form: the prefix is always "48" and the
    field holds the low 24 bits of the (linked) uint64 difference *)
Lemma generateBranchCodeLine_eq (address targetAddress : string) (shouldLink : bool) :
  generateBranchCodeLine address targetAddress shouldLink =
  match sliceFrom address 2 with
  | inl f => inl f
  | inr a2 =>
      match sliceFrom targetAddress 2 with
      | inl f => inl f
      | inr t2 =>
          match snd (parseUint t2) with
          | Some _ => fail (Panic "Failed to parse address or target address.")
          | None =>
              let d := subU64 (fst (parseUint t2)) (fst (parseUint a2)) in
              ret ("04" ++ toUpper a2 ++ " " ++ "48"
                   ++ hexFixed 6 (if shouldLink then u64 (d + 1) else d))
          end
      end
  end.
Proof.
  unfold generateBranchCodeLine.
  destruct (sliceFrom address 2) as [f|a2] eqn:Ha; [reflexivity|]. cbn [bind].
  destruct (parseUint a2) as [va ea].
  destruct (sliceFrom targetAddress 2) as [f|t2]; [reflexivity|]. cbn [bind].
  destruct (parseUint t2) as [vt et]. cbn [fst snd].
  destruct et as [e|]; [reflexivity|].
  replace (subU64 vt va <? 0)%N with false
    by (symmetry; apply N.ltb_ge; apply N.le_0_l).
  rewrite last6_formatX06 by (destruct shouldLink; apply u64_lt).
  reflexivity.
Qed.

Lemma mod64_mod24 (x : N) : ((x mod 2 ^ 64) mod 2 ^ 24 = x mod 2 ^ 24)%N.
Proof.
  replace (2 ^ 64)%N with (2 ^ 24 * 2 ^ 40)%N by reflexivity.
  rewrite N.Div0.mod_mul_r, (N.mul_comm (2 ^ 24)), N.Div0.mod_add, N.Div0.mod_mod.
  reflexivity.
Qed.

Lemma hexFixed6_mod (u : N) : hexFixed 6 u = hexFixed 6 (u mod 2 ^ 24).
Proof. rewrite hexFixed_mod at 1. reflexivity. Qed.

Lemma sliceFrom_ok (s : string) (i : nat) :
  i <= String.length s -> sliceFrom s i = ret (substring i (String.length s - i) s).
Proof.
  intro H. unfold sliceFrom. rewrite (proj2 (Nat.leb_le _ _) H). reflexivity.
Qed.

(** the value ParseUint returns next to an error *)
Lemma parseLoop_error_value (s : string) (n : N) (e : numError) :
  snd (parseLoop s n) = Some e ->
  fst (parseLoop s n) = match e with ErrSyntax => 0%N | ErrRange => maxVal32 end.
Proof.
  revert n; induction s as [|c s IH]; intros n H; simpl in *; [discriminate|].
  destruct (digitVal c) as [d|]; [|injection H as <-; reflexivity].
  destruct (16 <=? d)%N; [injection H as <-; reflexivity|].
  destruct (cutoff16 <=? n)%N; [injection H as <-; reflexivity|].
  match goal with |- context [if ?b then _ else _] => destruct b end;
    [injection H as <-; reflexivity | apply IH, H].
Qed.

Lemma parseUint_error_value (s : string) (e : numError) :
  snd (parseUint s) = Some e ->
  fst (parseUint s) = match e with ErrSyntax => 0%N | ErrRange => maxVal32 end.
Proof.
  destruct s as [|c s]; [intro H; simpl in H; injection H as <-; reflexivity|].
  apply parseLoop_error_value.
Qed.

(** Every line generateBranchCodeLine produces carries the prefix "48". *)
Lemma generateBranchCodeLine_prefix_48 (address targetAddress : string) (shouldLink : bool)
  (line : string) :
  generateBranchCodeLine address targetAddress shouldLink = ret line ->
  exists a2 field, line = ("04" ++ a2 ++ " " ++ "48" ++ field)%string.
Proof.
  rewrite generateBranchCodeLine_eq.
  destruct (sliceFrom address 2) as [f|a2]; [discriminate|].
  destruct (sliceFrom targetAddress 2) as [f|t2]; [discriminate|].
  destruct (snd (parseUint t2)); [discriminate|].
  intro H; injection H as <-. eexists; eexists; reflexivity.
Qed.

(** ** C1 *)

(** C1 (code_bug): the prefix is meant to be "4B" for a backward branch
    (target below base), but [addressDiff < 0] compares a uint64 and never
    holds: with base 80001000 and target 80000000 the branch line is
    "04001000 48FFF000", prefix "48". *)
Theorem C1_backward_branch_keeps_prefix_48 :
  generateBranchCodeLine "80001000" "80000000" false = ret "04001000 48FFF000".
Proof. vm_compute. reflexivity. Qed.

(** ** C5 *)

(** C5 (counterexample): with base 80000001 and target 80000000 the Branch
    field is FFFFFF and the BranchAndLink field is 000000, not FFFFFF + 1. *)
Lemma C5_link_field_wraps :
  generateBranchCodeLine "80000001" "80000000" false = ret "04000001 48FFFFFF" /\
  generateBranchCodeLine "80000001" "80000000" true = ret "04000001 48000000".
Proof. split; vm_compute; reflexivity. Qed.

(** C5 (amended): for the same address pair, Branch and BranchAndLink fail
    alike or emit the same line up to the 24-bit field, and the
    BranchAndLink field is the Branch field plus 1 modulo 2^24. *)
Theorem C5_link_field_succ_mod24 (address targetAddress : string) :
  (exists f, generateBranchCodeLine address targetAddress false = inl f /\
             generateBranchCodeLine address targetAddress true = inl f) \/
  (exists head v, (v < 2 ^ 24)%N /\
     generateBranchCodeLine address targetAddress false = ret (head ++ hexFixed 6 v)%string /\
     generateBranchCodeLine address targetAddress true
       = ret (head ++ hexFixed 6 ((v + 1) mod 2 ^ 24))%string).
Proof.
  rewrite !generateBranchCodeLine_eq.
  destruct (sliceFrom address 2) as [f|a2]; [left; exists f; split; reflexivity|].
  destruct (sliceFrom targetAddress 2) as [f|t2]; [left; exists f; split; reflexivity|].
  destruct (snd (parseUint t2)) as [e|]; [left; eexists; split; reflexivity|].
  right. cbv beta iota zeta. set (d := subU64 (fst (parseUint t2)) (fst (parseUint a2))).
  exists ("04" ++ toUpper a2 ++ " " ++ "48")%string, (d mod 2 ^ 24)%N.
  split; [apply N.mod_lt; discriminate|].
  rewrite !str_app_assoc. split.
  - rewrite (hexFixed6_mod d). reflexivity.
  - rewrite (hexFixed6_mod (u64 (d + 1))). unfold u64. rewrite mod64_mod24.
    rewrite N.Div0.add_mod_idemp_l. reflexivity.
Qed.

(** ** C9 *)

(** C9 (counterexample): a base address whose digits overflow 32 bits is a
    range error; ParseUint then returns 0xFFFFFFFF, not 0, and the line is
    not the one a base of 0 would give ("...48000000"). *)
Lemma C9_range_error_base_is_max :
  snd (parseUint "123456789") = Some ErrRange /\
  snd (parseUint "000000") = None /\
  generateBranchCodeLine "80123456789" "80000000" false = ret "04123456789 48000001" /\
  generateBranchCodeLine "80123456789" "80000000" false <> ret "04123456789 48000000".
Proof. vm_compute. repeat split; discriminate. Qed.

(** C9 (amended): an error parsing the base address is overwritten by the
    target's parse; when the target parses, the line is the one produced
    for the base value 0 (syntax error) or 0xFFFFFFFF (range error). *)
Theorem C9_base_parse_error_ignored (address targetAddress : string) (shouldLink : bool)
  (e : numError) :
  2 <= String.length address ->
  2 <= String.length targetAddress ->
  snd (parseUint (substring 2 (String.length address - 2) address)) = Some e ->
  snd (parseUint (substring 2 (String.length targetAddress - 2) targetAddress)) = None ->
  exists field,
    generateBranchCodeLine address targetAddress shouldLink
      = ret ("04" ++ toUpper (substring 2 (String.length address - 2) address) ++ " " ++ field)
    /\ generateBranchCodeLine ("00" ++ baseValueText e) targetAddress shouldLink
      = ret ("04" ++ baseValueText e ++ " " ++ field).
Proof.
  intros Ha Ht He Hok.
  pose proof (parseUint_error_value _ _ He) as Hv.
  rewrite !generateBranchCodeLine_eq, (sliceFrom_ok address 2 Ha),
    (sliceFrom_ok targetAddress 2 Ht).
  set (t2 := substring 2 (String.length targetAddress - 2) targetAddress) in *.
  set (a2 := substring 2 (String.length address - 2) address) in *.
  destruct e; cbn [baseValueText].
  - replace (sliceFrom ("00" ++ "0") 2) with (ret "0" : M string) by reflexivity.
    cbv beta iota zeta delta [ret]. rewrite Hok, Hv.
    eexists; split; reflexivity.
  - replace (sliceFrom ("00" ++ "FFFFFFFF") 2) with (ret "FFFFFFFF" : M string)
      by reflexivity.
    cbv beta iota zeta delta [ret]. rewrite Hok, Hv.
    eexists; split; reflexivity.
Qed.

(** ** Records of eight bytes *)

Lemma records8_length (k : nat) (l : list byte) :
  List.length l = 8 * k -> List.length (records8 l) = k.
Proof.
  revert l; induction k as [|k IH]; intros l Hl.
  - destruct l; [reflexivity | simpl in Hl; lia].
  - do 8 (destruct l as [|? l]; [simpl in Hl; lia|]).
    cbn [records8 List.length]. f_equal. apply IH. simpl in Hl. lia.
Qed.

Lemma recordLoop_aligned (s spare : list byte) (k : nat) :
  forall fuel i, List.length s = i + 8 * k -> k <= fuel ->
  recordLoop s spare fuel i = ret (records8 (skipn i s)).
Proof.
  induction k as [|k IH]; intros fuel i Hl Hk.
  - rewrite skipn_all2 by lia.
    destruct fuel as [|f]; [reflexivity|]. cbn [recordLoop].
    rewrite (proj2 (Nat.ltb_ge _ _)) by lia. reflexivity.
  - destruct fuel as [|f]; [lia|]. cbn [recordLoop].
    rewrite (proj2 (Nat.ltb_lt _ _)) by lia.
    unfold sliceBytes.
    rewrite (proj2 (Nat.leb_le i (i + 4))), (proj2 (Nat.leb_le (i + 4) _)),
      (proj2 (Nat.leb_le (i + 4) (i + 8))), (proj2 (Nat.leb_le (i + 8) _)) by lia.
    cbn [andb bind]. rewrite (IH f (i + 8)) by lia. cbn [bind].
    replace (i + 4 - i) with 4 by lia. replace (i + 8 - (i + 4)) with 4 by lia.
    assert (E4 : skipn (i + 4) s = skipn 4 (skipn i s))
      by (rewrite skipn_skipn; f_equal; lia).
    assert (E8 : skipn (i + 8) s = skipn 8 (skipn i s))
      by (rewrite skipn_skipn; f_equal; lia).
    rewrite !skipn_app, E4, E8.
    replace (i - List.length s) with 0 by lia.
    replace (i + 4 - List.length s) with 0 by lia.
    assert (Hr : List.length (skipn i s) = 8 * S k) by (rewrite length_skipn; lia).
    clear E4 E8. generalize dependent (skipn i s). intros r Hr.
    do 8 (destruct r as [|? r]; [simpl in Hr; lia|]).
    reflexivity.
Qed.

Lemma recordLines_aligned (s spare : list byte) :
  List.length s mod 8 = 0 -> recordLines s spare = ret (records8 s).
Proof.
  intro H. unfold recordLines.
  rewrite (recordLoop_aligned s spare (List.length s / 8)); [reflexivity| |].
  - pose proof (Nat.div_mod (List.length s) 8). lia.
  - apply Nat.Div0.div_le_upper_bound. lia.
Qed.

(** ** Padding *)

Lemma blockPad_length (l : list byte) :
  List.length (blockPad l)
  = if Nat.eqb (List.length l mod 8) 0 then List.length l else List.length l + 4.
Proof.
  unfold blockPad. destruct (Nat.eqb _ 0); cbn [negb]; [reflexivity|].
  rewrite length_app. reflexivity.
Qed.

Lemma injectPad_length (l : list byte) :
  List.length (injectPad l)
  = List.length l + (if Nat.eqb (List.length l mod 8) 0 then 8 else 4).
Proof. unfold injectPad. destruct (Nat.eqb _ 0); rewrite length_app; reflexivity. Qed.

Lemma mod4_of_mod8 (n : nat) : n mod 4 = (n mod 8) mod 4.
Proof.
  replace 8 with (4 * 2) by reflexivity.
  rewrite Nat.Div0.mod_mul_r, Nat.mul_comm, Nat.Div0.mod_add, Nat.Div0.mod_mod.
  reflexivity.
Qed.

Lemma add_mod8 (n k : nat) : (n + k) mod 8 = ((n mod 8) + k) mod 8.
Proof. rewrite Nat.Div0.add_mod_idemp_l. reflexivity. Qed.

Lemma blockPad_mod8 (l : list byte) :
  List.length (blockPad l) mod 8 = 0 <-> List.length l mod 4 = 0.
Proof.
  rewrite blockPad_length. set (n := List.length l). rewrite (mod4_of_mod8 n).
  destruct (Nat.eqb_spec (n mod 8) 0) as [E|E]; [rewrite E; cbn; tauto|].
  rewrite add_mod8.
  pose proof (Nat.mod_upper_bound n 8 ltac:(lia)).
  destruct (n mod 8) as [|[|[|[|[|[|[|[|r]]]]]]]]; cbn; split; intro; lia.
Qed.

Lemma injectPad_mod8 (l : list byte) :
  List.length (injectPad l) mod 8 = 0 <-> List.length l mod 4 = 0.
Proof.
  rewrite injectPad_length. set (n := List.length l).
  rewrite add_mod8, (mod4_of_mod8 n).
  pose proof (Nat.mod_upper_bound n 8 ltac:(lia)).
  destruct (n mod 8) as [|[|[|[|[|[|[|[|r]]]]]]]]; cbn; split; intro; lia.
Qed.

Lemma records8_aligned_length (l : list byte) :
  List.length l mod 8 = 0 -> List.length (records8 l) = List.length l / 8.
Proof.
  intro H. apply records8_length.
  pose proof (Nat.div_mod (List.length l) 8). lia.
Qed.

Lemma blockLinesFrom_aligned (w : World) (address : string) (l : list byte) :
  2 <= String.length address -> List.length l mod 4 = 0 ->
  blockLinesFrom w address l
  = ret (("06" ++ toUpper (substring 2 (String.length address - 2) address) ++ " "
          ++ formatX08 (N.of_nat (List.length (blockPad l)))) :: records8 (blockPad l)).
Proof.
  intros Ha H4. unfold blockLinesFrom.
  rewrite (sliceFrom_ok address 2 Ha). cbn [bind ret].
  rewrite recordLines_aligned by (apply blockPad_mod8; exact H4).
  reflexivity.
Qed.

(** ** C2 *)

(** C2 (counterexample): a one-byte binary file packs to 5 bytes (as does
    a one-byte injection); ReplaceBinary announces 5 bytes and reads its
    second word from past the packed bytes. *)
Lemma C2_odd_binary_not_aligned :
  List.length (blockPad [x01]) = 5 /\
  List.length (injectPad [x01]) = 5 /\
  generateReplaceBinaryLines oddWorld "80001234" "b.bin"
  = ret ["06001234 00000005"; "01600000 00000000"].
Proof. vm_compute. repeat split. Qed.

(** C2 (amended): both packers give a length divisible by 8 exactly when
    the input length is a multiple of 4; ReplaceBinary on such a file emits
    its header and one line per 8-byte record of the packed bytes. *)
Theorem C2_packed_aligned_iff_word_multiple (w : World) (address file : string)
  (l : list byte) :
  readFile w file = Some l ->
  2 <= String.length address ->
  (List.length (blockPad l) mod 8 = 0 <-> List.length l mod 4 = 0) /\
  (List.length (injectPad l) mod 8 = 0 <-> List.length l mod 4 = 0) /\
  (List.length l mod 4 = 0 ->
   generateReplaceBinaryLines w address file
   = ret (("06" ++ toUpper (substring 2 (String.length address - 2) address) ++ " "
           ++ formatX08 (N.of_nat (List.length (blockPad l)))) :: records8 (blockPad l))).
Proof.
  intros Hf Ha. split; [apply blockPad_mod8|]. split; [apply injectPad_mod8|].
  intro H4. unfold generateReplaceBinaryLines. rewrite Hf. cbn [bind ret].
  apply blockLinesFrom_aligned; assumption.
Qed.

(** ** C3 *)

(** C3: past 4 bytes, an injection is packed by appending 60 00 00 00
    00 00 00 00 to a length divisible by 8 and 00 00 00 00 otherwise; the
    header counts the packed 8-byte records. *)
Theorem C3_inject_terminator (w : World) (address file : string) (l : list byte) :
  4 < List.length l ->
  injectionCodeLinesFrom w address file l
  = (let packed := (l ++ (if Nat.eqb (List.length l mod 8) 0
                          then [x60; x00; x00; x00; x00; x00; x00; x00]
                          else [x00; x00; x00; x00]))%list in
     a2 <- sliceFrom address 2 ;;
     lines <- recordLines packed (spareCapacity w) ;;
     ret (("C2" ++ toUpper a2 ++ " " ++ formatX08 (N.of_nat (List.length packed / 8)))
          :: lines)) /\
  (List.length l = 32 -> List.length (injectPad l) = 40) /\
  (List.length l = 28 -> List.length (injectPad l) = 32).
Proof.
  intro H. split; [|split; intro E; rewrite injectPad_length, E; reflexivity].
  unfold injectionCodeLinesFrom.
  rewrite (proj2 (Nat.eqb_neq _ 0)), (proj2 (Nat.eqb_neq _ 4)) by lia.
  unfold injectPad. destruct (Nat.eqb (List.length l mod 8) 0); reflexivity.
Qed.

(** ** C4 *)

(** C4 (counterexample): one byte of code gives the header count 0 and
    still one record line, read from past the packed bytes. *)
Lemma C4_odd_code_record_count :
  generateInjectionCodeLines oddWorld "80001234" "f.asm"
  = ret ["C2001234 00000000"; "01000000 00000000"].
Proof. vm_compute. reflexivity. Qed.

(** C4 (amended): for compiled code whose length is a multiple of 4, no
    code is an error naming the file, one word is a single 04 line, and any
    other length gives the C2 header with the packed record count followed
    by exactly that many record lines. *)
Theorem C4_inject_lines (w : World) (address file : string) (l : list byte) :
  compile w file = ret l ->
  2 <= String.length address ->
  List.length l mod 4 = 0 ->
  generateInjectionCodeLines w address file
  = (let a2 := substring 2 (String.length address - 2) address in
     if Nat.eqb (List.length l) 0 then
       fail (Panic ("Did not find any code in file: " ++ file ++ nl))
     else if Nat.eqb (List.length l) 4 then
       ret ["04" ++ toUpper a2 ++ " " ++ toUpper (hexEncodeToString l)]
     else
       ret (("C2" ++ toUpper a2 ++ " " ++ formatX08 (N.of_nat (List.length (injectPad l) / 8)))
            :: records8 (injectPad l))) /\
  List.length (records8 (injectPad l)) = List.length (injectPad l) / 8.
Proof.
  intros Hc Ha H4.
  assert (Hp : List.length (injectPad l) mod 8 = 0) by (apply injectPad_mod8; exact H4).
  split; [|apply records8_aligned_length; exact Hp].
  unfold generateInjectionCodeLines, generateInjectionCodeLinesWith.
  change (compileContents w file (readFile w file)) with (compile w file).
  rewrite Hc. cbn [bind ret]. unfold injectionCodeLinesFrom. cbv zeta.
  destruct (Nat.eqb_spec (List.length l) 0); [reflexivity|].
  destruct (Nat.eqb_spec (List.length l) 4) as [E|].
  - rewrite firstn_all2 by lia. unfold generateReplaceCodeLine.
    rewrite (sliceFrom_ok address 2 Ha). reflexivity.
  - rewrite (sliceFrom_ok address 2 Ha). cbn [bind ret].
    rewrite recordLines_aligned by exact Hp. reflexivity.
Qed.

(** ** The GCT serializer *)

Lemma substring_length (s : string) : forall n m,
  n + m <= String.length s -> String.length (substring n m s) = m.
Proof.
  induction s as [|c s IH]; intros n m H; destruct n as [|n], m as [|m];
    cbn in *; try reflexivity; try lia.
  - f_equal. apply IH. lia.
  - apply IH. lia.
  - apply IH. lia.
Qed.

(** decoding a concatenation whose first part has an even length *)
Lemma hexDecodeString_app (k : nat) : forall a b,
  String.length a = 2 * k ->
  hexDecodeString (a ++ b)
  = match hexDecodeString a with
    | inl e => inl e
    | inr x =>
        match hexDecodeString b with
        | inl e => inl e
        | inr y => inr (x ++ y)%list
        end
    end.
Proof.
  induction k as [|k IH]; intros a b H.
  - destruct a; [|cbn in H; lia]. cbn.
    destruct (hexDecodeString b); reflexivity.
  - destruct a as [|p [|q a]]; cbn in H; try lia.
    cbn [String.append hexDecodeString].
    destruct (fromHexChar p), (fromHexChar q); try reflexivity.
    rewrite (IH a b) by lia.
    destruct (hexDecodeString a); [reflexivity|].
    destruct (hexDecodeString b); reflexivity.
Qed.

Lemma hexDecodeString_length (n : nat) : forall s bs,
  String.length s <= n -> hexDecodeString s = inr bs ->
  2 * List.length bs = String.length s.
Proof.
  induction n as [|n IH]; intros s bs Hn H.
  - destruct s; [|cbn in Hn; lia]. cbn in H. injection H as <-. reflexivity.
  - destruct s as [|p [|q s]]; cbn in H.
    + injection H as <-. reflexivity.
    + destruct (fromHexChar p); discriminate.
    + destruct (fromHexChar p), (fromHexChar q); try discriminate.
      destruct (hexDecodeString s) as [|bs'] eqn:E; [discriminate|].
      injection H as <-. cbn in Hn |- *.
      pose proof (IH s bs' ltac:(lia) E). lia.
Qed.

Lemma gctFields_length (line : string) (bs : list byte) :
  gctFields line = Some bs -> List.length bs = 8.
Proof.
  unfold gctFields. destruct (Nat.ltb_spec (String.length line) 17); [discriminate|].
  destruct (hexDecodeString (substring 0 8 line)) as [|a] eqn:Ea; [discriminate|].
  destruct (hexDecodeString (substring 9 8 line)) as [|b] eqn:Eb; [discriminate|].
  intro E; injection E as <-.
  pose proof (hexDecodeString_length _ _ _ (le_n _) Ea) as La.
  pose proof (hexDecodeString_length _ _ _ (le_n _) Eb) as Lb.
  rewrite substring_length in La, Lb by lia.
  rewrite length_app. lia.
Qed.

(** one iteration of the loop of writeGctOutput appends [gctRecord line] *)
Lemma gctLoop_app (output : list string) : forall acc,
  gctLoop output acc = (acc ++ flat_map gctRecord output)%list.
Proof.
  induction output as [|line rest IH]; intro acc.
  - cbn. rewrite app_nil_r. reflexivity.
  - cbn [gctLoop flat_map]. unfold gctRecord, gctFields.
    destruct (Nat.ltb_spec (String.length line) 17).
    + rewrite IH. reflexivity.
    + rewrite (hexDecodeString_app 4) by (apply substring_length; lia).
      destruct (hexDecodeString (substring 0 8 line)); [rewrite IH; reflexivity|].
      destruct (hexDecodeString (substring 9 8 line)); rewrite IH;
        [reflexivity | rewrite <- !app_assoc; reflexivity].
Qed.

Lemma gctRecord_bad_first (c : ascii) (r : string) :
  fromHexChar c = None -> gctRecord (String c r) = [].
Proof.
  intro Hc. unfold gctRecord, gctFields.
  destruct (Nat.ltb _ 17); [reflexivity|].
  cbn [substring]. destruct (substring 0 7 r); cbn; rewrite Hc; reflexivity.
Qed.

Lemma length_flat_map_gctRecord (output : list string) :
  List.length (flat_map gctRecord output) = 8 * List.length (filter isCodeLine output).
Proof.
  induction output as [|line rest IH]; [reflexivity|].
  cbn [flat_map filter]. rewrite length_app, IH.
  unfold gctRecord, isCodeLine.
  destruct (gctFields line) as [bs|] eqn:E; cbn [List.length].
  - rewrite (gctFields_length _ _ E). lia.
  - reflexivity.
Qed.

(** ** C6 *)

(** C6: the GCT bytes are the header 00 D0 C0 DE 00 D0 C0 DE, then for each
    line in order the bytes of its fields [0,8) and [9,17) when the line has
    17 characters and both are hex (nothing otherwise), then the footer
    F0 00 00 00 00 00 00 00; empty, header ('$') and comment ('*') lines add
    nothing. *)
Theorem C6_gct_serialization (output : list string) (r : string) :
  gctOutputBytes output
  = ([x00; xd0; xc0; xde; x00; xd0; xc0; xde]
     ++ flat_map gctRecord output
     ++ [xf0; x00; x00; x00; x00; x00; x00; x00])%list /\
  (forall line bs, gctFields line = Some bs ->
     2 * List.length bs = 16 /\
     hexDecodeString (substring 0 8 line ++ substring 9 8 line) = inr bs) /\
  gctRecord "" = [] /\ gctRecord (String "$" r) = [] /\ gctRecord (String "*" r) = [].
Proof.
  split; [|split; [|split; [reflexivity | split; apply gctRecord_bad_first; reflexivity]]].
  - unfold gctOutputBytes. rewrite gctLoop_app, <- app_assoc. reflexivity.
  - intros line bs H. split; [rewrite (gctFields_length _ _ H); reflexivity|].
    revert H. unfold gctFields. destruct (Nat.ltb_spec (String.length line) 17);
      [discriminate|].
    rewrite (hexDecodeString_app 4) by (apply substring_length; lia).
    destruct (hexDecodeString (substring 0 8 line)); [discriminate|].
    destruct (hexDecodeString (substring 9 8 line)); [discriminate|].
    intro E; injection E as <-. reflexivity.
Qed.

(** ** C10 *)

(** C10: the GCT output has 16 bytes plus 8 per accepted code line; it is a
    multiple of 8 and at least 16 bytes long. *)
Theorem C10_gct_length (output : list string) :
  List.length (gctOutputBytes output) = 16 + 8 * List.length (filter isCodeLine output) /\
  List.length (gctOutputBytes output) mod 8 = 0 /\
  16 <= List.length (gctOutputBytes output).
Proof.
  assert (E : List.length (gctOutputBytes output)
              = 16 + 8 * List.length (filter isCodeLine output)).
  { unfold gctOutputBytes. rewrite gctLoop_app, !length_app, length_flat_map_gctRecord.
    cbn. lia. }
  rewrite E. split; [reflexivity|]. split; [|lia].
  replace (16 + 8 * List.length (filter isCodeLine output))
    with ((2 + List.length (filter isCodeLine output)) * 8) by lia.
  apply Nat.Div0.mod_mul.
Qed.

(** ** InjectFolder *)

Lemma asmFilesLines_concatM (join : string -> string -> string) (w : World)
  (folder : string) (contents : list (string * node)) :
  asmFilesLines join w folder contents
  = concatM (map (fun e => asmEntryLines join w folder (fst e) (snd e))
                 (filter isAsmEntry contents)).
Proof.
  induction contents as [|[name entry] rest IH]; [reflexivity|].
  cbn [asmFilesLines filter]. unfold isAsmEntry at 1. cbn [fst].
  destruct (String.eqb (ext name) ".asm"); [|exact IH].
  cbn [map concatM fst snd]. rewrite IH. reflexivity.
Qed.

Lemma folderLines_NDir (join : string -> string -> string) (w : World)
  (folder : string) (contents : list (string * node)) (isRecursive : bool) :
  folderLines join w folder (NDir (Some contents)) isRecursive
  = (files <- asmFilesLines join w folder contents ;;
     if isRecursive then
       sub <- concatM (map (fun e => folderLines join w (join folder (fst e)) (snd e) true)
                           (filter isDirEntry contents)) ;;
       ret (files ++ sub)%list
     else ret files).
Proof.
  cbn [folderLines]. destruct isRecursive; [|reflexivity].
  match goal with
  | |- bind _ (fun lines => bind (?F contents) _) = _ =>
      assert (HF : forall cs, F cs
                   = concatM (map (fun e => folderLines join w (join folder (fst e)) (snd e) true)
                                  (filter isDirEntry cs)))
  end.
  { induction cs as [|[name entry] cs IH]; [reflexivity|].
    destruct entry as [d|d]; cbn -[folderLines]; rewrite IH; reflexivity. }
  rewrite HF. reflexivity.
Qed.


(** ** C7 *)


Lemma asmFilesLines_app (join : string -> string -> string) (w : World) (folder : string)
  (pre post : list (string * node)) :
  asmFilesLines join w folder (pre ++ post)
  = (l <- asmFilesLines join w folder pre ;;
     r <- asmFilesLines join w folder post ;;
     ret (l ++ r)%list).
Proof.
  induction pre as [|[name entry] pre IH]; cbn [app asmFilesLines].
  - destruct (asmFilesLines join w folder post); reflexivity.
  - destruct (String.eqb (ext name) ".asm"); [|exact IH].
    destruct (asmEntryLines join w folder name entry) as [f|l]; [reflexivity|]. cbn [bind].
    rewrite IH. destruct (asmFilesLines join w folder pre) as [f|l']; [reflexivity|]. cbn [bind].
    destruct (asmFilesLines join w folder post) as [f|r]; [reflexivity|]. cbn [bind ret].
    rewrite app_assoc. reflexivity.
Qed.

(** C7 (code bug): the first loop of generateInjectionFolderLines selects
    entries by the .asm extension alone, without the IsDir test of the
    recursive loop: a subdirectory named *.asm listed after entries that
    were processed is opened as a file, its first line reads as empty, and
    the whole build fails with the address error naming it, recursive flag
    set or not. *)
Theorem C7_asm_directory_aborts_build (join : string -> string -> string) (w : World)
  (folder name : string) (pre post es : list (string * node)) (isRecursive : bool)
  (lines : list string) :
  readDir w folder = Some (pre ++ (name, NDir (Some es)) :: post)%list ->
  ext name = ".asm" ->
  asmFilesLines join w folder pre = ret lines ->
  generateInjectionFolderLines join w folder isRecursive
  = fail (Panic (addressErrorText (join folder name) "")).
Proof.
  intros Hd He Hpre. unfold generateInjectionFolderLines. rewrite Hd, folderLines_NDir.
  rewrite asmFilesLines_app, Hpre. cbn [bind asmFilesLines]. rewrite He. reflexivity.
Qed.

(** ** Exit codes *)

Lemma okM_bind {A B} (m : M A) (k : A -> M B) :
  okM m -> (forall a, okM (k a)) -> okM (bind m k).
Proof. destruct m; cbn; auto. Qed.

Lemma okM_ret {A} (a : A) : okM (ret a).
Proof. exact I. Qed.

Lemma okM_panic {A} (msg : string) : okM (fail (Panic msg) : M A).
Proof. exact I. Qed.

Lemma okM_exit1 {A} : okM (fail (Exit 1) : M A).
Proof. reflexivity. Qed.

Create HintDb okm.
#[local] Hint Resolve okM_ret okM_panic okM_exit1 : okm.

Ltac okM_step :=
  match goal with
  | |- okM (bind _ _) => apply okM_bind; [|intro]
  | |- okM (if ?b then _ else _) => destruct b
  | |- okM (match ?x with _ => _ end) => destruct x
  end.

Ltac okM_auto := repeat (first [solve [auto with okm] | okM_step]).

Lemma sliceFrom_okM (s : string) (i : nat) : okM (sliceFrom s i).
Proof. unfold sliceFrom. okM_auto. Qed.

Lemma sliceStr_okM (s : string) (i j : nat) : okM (sliceStr s i j).
Proof. unfold sliceStr. okM_auto. Qed.
#[local] Hint Resolve sliceFrom_okM sliceStr_okM : okm.

Lemma generateReplaceCodeLine_okM (address value : string) :
  okM (generateReplaceCodeLine address value).
Proof. unfold generateReplaceCodeLine. okM_auto. Qed.

Lemma generateBranchCodeLine_okM (address targetAddress : string) (shouldLink : bool) :
  okM (generateBranchCodeLine address targetAddress shouldLink).
Proof. unfold generateBranchCodeLine. cbv zeta. okM_auto. Qed.

Lemma compileContents_okM (w : World) (file : string) (c : option (list byte)) :
  okM (compileContents w file c).
Proof. unfold compileContents. okM_auto. Qed.
#[local] Hint Resolve generateReplaceCodeLine_okM generateBranchCodeLine_okM
  compileContents_okM : okm.

Lemma sliceBytes_okM (s spare : list byte) (i j : nat) : okM (sliceBytes s spare i j).
Proof. unfold sliceBytes. okM_auto. Qed.
#[local] Hint Resolve sliceBytes_okM : okm.

Lemma recordLoop_okM (s spare : list byte) (fuel i : nat) : okM (recordLoop s spare fuel i).
Proof.
  revert i; induction fuel as [|f IH]; intro i; cbn [recordLoop]; okM_auto.
Qed.
#[local] Hint Resolve recordLoop_okM : okm.

Lemma injectionCodeLinesFrom_okM (w : World) (address file : string) (l : list byte) :
  okM (injectionCodeLinesFrom w address file l).
Proof. unfold injectionCodeLinesFrom, recordLines. cbv zeta. okM_auto. Qed.
#[local] Hint Resolve injectionCodeLinesFrom_okM : okm.

Lemma generateInjectionCodeLinesWith_okM (w : World) (address file : string)
  (c : option (list byte)) : okM (generateInjectionCodeLinesWith w address file c).
Proof. unfold generateInjectionCodeLinesWith. okM_auto. Qed.
#[local] Hint Resolve generateInjectionCodeLinesWith_okM : okm.

Lemma blockLinesFrom_okM (w : World) (address : string) (l : list byte) :
  okM (blockLinesFrom w address l).
Proof. unfold blockLinesFrom, recordLines. cbv zeta. okM_auto. Qed.
#[local] Hint Resolve blockLinesFrom_okM : okm.

Lemma annotateFirst_okM (lines : list string) (annotation : string) :
  okM (annotateFirst lines annotation).
Proof. unfold annotateFirst. okM_auto. Qed.
#[local] Hint Resolve annotateFirst_okM : okm.

Lemma asmEntryLines_okM (join : string -> string -> string) (w : World)
  (folder name : string) (entry : node) : okM (asmEntryLines join w folder name entry).
Proof. unfold asmEntryLines. cbv zeta. okM_auto. Qed.
#[local] Hint Resolve asmEntryLines_okM : okm.

Lemma concatM_okM {X} (f : X -> M (list string)) (l : list X) :
  (forall x, In x l -> okM (f x)) -> okM (concatM (map f l)).
Proof.
  induction l as [|x l IH]; intro H; cbn [map concatM]; [exact I|].
  apply okM_bind; [apply H; left; reflexivity|intro].
  apply okM_bind; [apply IH; intros y Hy; apply H; right; exact Hy|intro; exact I].
Qed.

Lemma folderLines_okM (join : string -> string -> string) (w : World) (dir : node) :
  forall folder r, okM (folderLines join w folder dir r).
Proof.
  induction dir as [d| |cs IH] using node_ind_nested; intros folder r; [exact I|exact I|].
  rewrite folderLines_NDir, asmFilesLines_concatM.
  apply okM_bind; [apply concatM_okM; intros; apply asmEntryLines_okM|intro files].
  destruct r; [|exact I].
  apply okM_bind; [|intro; exact I].
  apply concatM_okM. intros e He. apply filter_In in He.
  rewrite Forall_forall in IH. apply IH, He.
Qed.
#[local] Hint Resolve folderLines_okM : okm.

Lemma geckoCodeLines_okM (join : string -> string -> string) (w : World) (g : GeckoCode) :
  okM (geckoCodeLines join w g).
Proof.
  unfold geckoCodeLines, generateInjectionCodeLines, generateReplaceCodeBlockLines,
    generateReplaceBinaryLines, generateInjectionFolderLines, compile.
  cbv zeta. okM_auto.
Qed.
#[local] Hint Resolve geckoCodeLines_okM : okm.

Lemma buildBody_okM (join : string -> string -> string) (w : World)
  (codes : list CodeDescription) : okM (buildBody join w codes).
Proof.
  induction codes as [|c codes IH]; cbn [buildBody]; [exact I|].
  apply okM_bind; [|intro; okM_auto].
  unfold generateCodeLines. induction (Build c) as [|g gs IHg]; cbn [codeLinesLoop]; okM_auto.
Qed.
#[local] Hint Resolve buildBody_okM : okm.

Lemma runBuild_okM (join : string -> string -> string) (args : list string) (w : World) :
  okM (runBuild join args w).
Proof. unfold runBuild, readConfigFile. okM_auto. Qed.

(** ** C8 *)

(** C8 (counterexample): [gecko] without a command fails, yet the deferred
    [recover()] lets main return: exit status 0. *)
(** C8 (code bug): a failure before the output loop writes no file, but the
    exit status is 1 only when the assembler failed (os.Exit(1)); after any
    other error the deferred recover() in main swallows the panic and the
    process exits with status 0. *)
Theorem C8_failure_writes_nothing (join : string -> string -> string) (args : list string)
  (w : World) (f : failure) :
  runBuild join args w = inl f ->
  writtenFiles (main join args w) = [] /\
  exitStatus (main join args w) = match f with Panic _ => 0%Z | Exit _ => 1%Z end.
Proof.
  intro H. pose proof (runBuild_okM join args w) as Hok. rewrite H in Hok.
  unfold main. rewrite H. destruct f as [msg|c]; cbn in Hok |- *; [|subst c]; split; reflexivity.
Qed.

(** ** Instances of the theorems *)

Lemma C2_witness :
  readFile blrWorld "b.bin" = Some blrCode /\ 2 <= String.length "80001234" /\
  generateReplaceBinaryLines blrWorld "80001234" "b.bin"
  = ret ["06001234 00000008"; "38600001 4E800020"].
Proof.
  split; [reflexivity|]. split; [cbn; lia|].
  rewrite (proj2 (proj2 (C2_packed_aligned_iff_word_multiple blrWorld "80001234" "b.bin"
                            blrCode eq_refl ltac:(cbn; lia))) eq_refl).
  vm_compute. reflexivity.
Defined.

Lemma C3_witness :
  4 < List.length (repeat x00 32) /\ List.length (injectPad (repeat x00 32)) = 40.
Proof.
  split; [cbn; lia|].
  exact (proj1 (proj2 (C3_inject_terminator blrWorld "80001234" "f.asm" (repeat x00 32)
                         ltac:(cbn; lia))) eq_refl).
Defined.

Lemma C4_witness :
  compile blrWorld "f.asm" = ret blrCode /\
  generateInjectionCodeLines blrWorld "80001234" "f.asm"
  = ret ["C2001234 00000002"; "38600001 4E800020"; "60000000 00000000"].
Proof.
  split; [reflexivity|].
  rewrite (proj1 (C4_inject_lines blrWorld "80001234" "f.asm" blrCode eq_refl
                    ltac:(cbn; lia) eq_refl)).
  vm_compute. reflexivity.
Defined.

Lemma C6_witness :
  gctFields "C2001234 00000002" = Some [xc2; x00; x12; x34; x00; x00; x00; x02] /\
  hexDecodeString ("C2001234" ++ "00000002") = inr [xc2; x00; x12; x34; x00; x00; x00; x02].
Proof.
  split; [reflexivity|].
  exact (proj2 (proj1 (proj2 (C6_gct_serialization [] "")) "C2001234 00000002"
                  [xc2; x00; x12; x34; x00; x00; x00; x02] eq_refl)).
Defined.

Lemma C7_witness :
  readDir folderWorld "f"
  = Some ([("a.asm", NFile (Some asmSource))] ++ ("sub.asm", NDir (Some [])) :: [])%list /\
  asmFilesLines slashJoin folderWorld "f" [("a.asm", NFile (Some asmSource))]
  = ret ["C2001234 00000002 #f/a.asm"; "38600001 4E800020"; "60000000 00000000"] /\
  generateInjectionFolderLines slashJoin folderWorld "f" false
  = fail (Panic (addressErrorText "f/sub.asm" "")).
Proof.
  split; [reflexivity|]. split; [vm_compute; reflexivity|].
  exact (C7_asm_directory_aborts_build slashJoin folderWorld "f" "sub.asm"
           [("a.asm", NFile (Some asmSource))] [] [] false
           ["C2001234 00000002 #f/a.asm"; "38600001 4E800020"; "60000000 00000000"]
           eq_refl eq_refl ltac:(vm_compute; reflexivity)).
Defined.

Lemma C8_witness :
  runBuild slashJoin ["gecko"] oddWorld
  = fail (Panic ("Must provide a command. Try typing 'gecko build'" ++ nl)) /\
  writtenFiles (main slashJoin ["gecko"] oddWorld) = [] /\
  exitStatus (main slashJoin ["gecko"] oddWorld) = 0%Z.
Proof.
  split; [reflexivity|].
  exact (C8_failure_writes_nothing slashJoin ["gecko"] oddWorld
           (Panic ("Must provide a command. Try typing 'gecko build'" ++ nl)) eq_refl).
Defined.


Lemma C9_witness :
  2 <= String.length "80123456789" /\
  snd (parseUint "123456789") = Some ErrRange /\
  exists field,
    generateBranchCodeLine "80123456789" "80000000" false
      = ret ("04" ++ "123456789" ++ " " ++ field) /\
    generateBranchCodeLine ("00" ++ "FFFFFFFF") "80000000" false
      = ret ("04" ++ "FFFFFFFF" ++ " " ++ field).
Proof.
  split; [cbn; lia|]. split; [vm_compute; reflexivity|].
  exact (C9_base_parse_error_ignored "80123456789" "80000000" false ErrRange
           ltac:(cbn; lia) ltac:(cbn; lia) ltac:(vm_compute; reflexivity)
           ltac:(vm_compute; reflexivity)).
Defined.

(** * Further properties of the generators and the output *)

Lemma N_lt16_cases (d : N) : (d < 16)%N -> exists k, k < 16 /\ d = N.of_nat k.
Proof. intro H. exists (N.to_nat d). split; [lia|]. rewrite N2Nat.id. reflexivity. Qed.

Ltac enum16 H := 
  let k := fresh "k" in let Hk := fresh in let E := fresh in
  destruct (N_lt16_cases _ H) as [k [Hk E]]; subst;
  do 16 (destruct k as [|k]; [reflexivity|]); lia.

Lemma fromHexChar_upper (d : N) : (d < 16)%N -> fromHexChar (hexDigitUpper d) = Some d.
Proof. intro H. enum16 H. Qed.

Lemma fromHexChar_lower (d : N) : (d < 16)%N -> fromHexChar (hexDigitLower d) = Some d.
Proof. intro H. enum16 H. Qed.

Lemma upperChar_lower (d : N) : (d < 16)%N -> upperChar (hexDigitLower d) = hexDigitUpper d.
Proof. intro H. enum16 H. Qed.

Lemma fromHexChar_upperChar (c : ascii) (d : N) :
  fromHexChar c = Some d -> fromHexChar (upperChar c) = Some d.
Proof.
  destruct c as [[] [] [] [] [] [] [] []]; vm_compute; intro H; try discriminate H; exact H.
Qed.

Lemma byteOfN_to_N (b : byte) : byteOfN (Byte.to_N b) = b.
Proof. unfold byteOfN. rewrite Byte.of_to_N. reflexivity. Qed.

Lemma byte_digits (b : byte) :
  (Byte.to_N b / 16 < 16)%N /\ (Byte.to_N b mod 16 < 16)%N /\
  (Byte.to_N b / 16 * 16 + Byte.to_N b mod 16 = Byte.to_N b)%N.
Proof.
  pose proof (Byte.to_N_bounded b). split; [|split].
  - apply N.Div0.div_lt_upper_bound. lia.
  - apply N.mod_lt. discriminate.
  - pose proof (N.div_mod (Byte.to_N b) 16 ltac:(discriminate)). lia.
Qed.

Lemma hexDecode_encode (bs : list byte) :
  hexDecodeString (hexEncodeToString bs) = inr bs /\
  hexDecodeString (toUpper (hexEncodeToString bs)) = inr bs.
Proof.
  induction bs as [|b bs [IH1 IH2]]; [split; reflexivity|].
  destruct (byte_digits b) as [H1 [H2 H3]].
  cbn [hexEncodeToString toUpper hexDecodeString].
  rewrite !upperChar_lower by assumption.
  rewrite fromHexChar_lower, fromHexChar_lower, fromHexChar_upper, fromHexChar_upper
    by assumption.
  rewrite IH1, IH2, H3, byteOfN_to_N. split; reflexivity.
Qed.

Lemma hexDecode_toUpper (s : string) (bs : list byte) :
  hexDecodeString s = inr bs -> hexDecodeString (toUpper s) = inr bs.
Proof.
  revert bs. induction s as [s IH] using (induction_ltof1 _ String.length).
  destruct s as [|p [|q s]]; intros bs H; cbn [toUpper hexDecodeString] in *.
  - exact H.
  - destruct (fromHexChar p); discriminate.
  - destruct (fromHexChar p) as [a|] eqn:Ep; [|discriminate].
    destruct (fromHexChar q) as [b|] eqn:Eq; [|discriminate].
    rewrite (fromHexChar_upperChar _ _ Ep), (fromHexChar_upperChar _ _ Eq).
    destruct (hexDecodeString s) as [|bs'] eqn:Es; [discriminate|].
    rewrite (IH s) with (bs := bs'); [exact H| |exact Es].
    unfold ltof. cbn. lia.
Qed.

Lemma hexFixed_add (k m : nat) (u : N) :
  hexFixed (m + k) u = (hexFixed k (u / 16 ^ N.of_nat m) ++ hexFixed m u)%string.
Proof.
  revert u; induction m as [|m IH]; intro u.
  - cbn. rewrite N.div_1_r, str_app_nil_r. reflexivity.
  - cbn [Nat.add hexFixed]. rewrite IH, str_app_assoc. f_equal. f_equal.
    rewrite N.Div0.div_div. f_equal. rewrite Nat2N.inj_succ, N.pow_succ_r'. lia.
Qed.

Lemma hexFixed_decode (k : nat) (u : N) :
  hexDecodeString (hexFixed (2 * k) u) = inr (beBytes k u).
Proof.
  revert u; induction k as [|k IH]; intro u; [reflexivity|].
  replace (2 * S k) with (2 + 2 * k) by lia.
  rewrite hexFixed_add, (hexDecodeString_app k) by apply hexFixed_length.
  change (16 ^ N.of_nat 2)%N with 256%N. rewrite IH.
  cbn [beBytes]. f_equal. f_equal.
  cbn [hexFixed]. cbn [String.append].
  assert (H1 : (u / 16 mod 16 < 16)%N) by (apply N.mod_lt; discriminate).
  assert (H2 : (u mod 16 < 16)%N) by (apply N.mod_lt; discriminate).
  cbn [hexDecodeString]. rewrite (fromHexChar_upper _ H1), (fromHexChar_upper _ H2).
  change 256%N with (16 * 16)%N. rewrite N.Div0.mod_mul_r.
  rewrite (N.mul_comm ((u / 16) mod 16)). rewrite N.add_comm. reflexivity.
Qed.

Lemma formatX08_decode (n : N) :
  (n < 2 ^ 32)%N -> hexDecodeString (formatX08 n) = inr (beBytes 4 n).
Proof.
  intro H. unfold formatX08.
  rewrite padLeft_formatX by (cbn; lia).
  apply (hexFixed_decode 4).
Qed.

Lemma substring_shift (a s : string) (m : nat) :
  substring (String.length a) m (a ++ s) = substring 0 m s.
Proof. induction a as [|c a IH]; [reflexivity|]. exact IH. Qed.

Lemma substring_prefix (a b : string) : substring 0 (String.length a) (a ++ b) = a.
Proof. induction a as [|c a IH]; [destruct b; reflexivity|]. cbn. rewrite IH. reflexivity. Qed.

Lemma gctRecord_fields (x y rest : string) (a b : list byte) :
  String.length x = 8 -> String.length y = 8 ->
  hexDecodeString x = inr a -> hexDecodeString y = inr b ->
  gctRecord (x ++ " " ++ y ++ rest) = (a ++ b)%list.
Proof.
  intros Lx Ly Ha Hb. unfold gctRecord, gctFields.
  rewrite (proj2 (Nat.ltb_ge _ _)) by (rewrite !str_length_app; cbn; lia).
  rewrite <- Lx at 1. rewrite substring_prefix, Ha.
  replace 9 with (String.length (x ++ " ")) by (rewrite str_length_app; cbn; lia).
  rewrite <- (str_app_assoc x " " (y ++ rest)), substring_shift.
  rewrite <- Ly at 1. rewrite substring_prefix, Hb.
  reflexivity.
Qed.

Lemma hexEncode_length (bs : list byte) :
  String.length (hexEncodeToString bs) = 2 * List.length bs.
Proof. induction bs as [|b bs IH]; [reflexivity|]. cbn [hexEncodeToString String.length]. rewrite IH. cbn. lia. Qed.

Lemma toUpper_length (s : string) : String.length (toUpper s) = String.length s.
Proof. induction s as [|c s IH]; [reflexivity|]. cbn. rewrite IH. reflexivity. Qed.

Lemma gctRecord_recordLine (l r : list byte) :
  List.length l = 4 -> List.length r = 4 -> gctRecord (recordLine l r) = (l ++ r)%list.
Proof.
  intros Hl Hr. unfold recordLine.
  rewrite <- (str_app_nil_r (toUpper (hexEncodeToString r))).
  apply gctRecord_fields;
    [rewrite toUpper_length, hexEncode_length; lia
    |rewrite toUpper_length, hexEncode_length; lia
    |apply hexDecode_encode|apply hexDecode_encode].
Qed.

Lemma records8_gct (k : nat) (l : list byte) :
  List.length l = 8 * k -> flat_map gctRecord (records8 l) = l.
Proof.
  revert l; induction k as [|k IH]; intros l Hl.
  - destruct l; [reflexivity | cbn in Hl; lia].
  - do 8 (destruct l as [|? l]; [cbn in Hl; lia|]).
    cbn [records8 flat_map]. rewrite gctRecord_recordLine by reflexivity.
    rewrite IH by (cbn in Hl; lia). reflexivity.
Qed.

Lemma substring_two (c0 c1 : ascii) (s : string) :
  substring 2 (String.length (String c0 (String c1 s)) - 2) (String c0 (String c1 s)) = s.
Proof.
  cbn [String.length substring].
  replace (S (S (String.length s)) - 2) with (String.length s) by lia.
  apply substring_whole.
Qed.

Lemma sliceFrom_two (c0 c1 : ascii) (s : string) : sliceFrom (String c0 (String c1 s)) 2 = ret s.
Proof. rewrite sliceFrom_ok by (cbn; lia). rewrite substring_two. reflexivity. Qed.

Lemma addLineAnnotation_suffix (line annotation : string) :
  exists suffix, addLineAnnotation line annotation = (line ++ suffix)%string.
Proof.
  unfold addLineAnnotation. destruct (String.eqb annotation "").
  - exists "". rewrite str_app_nil_r. reflexivity.
  - eexists. reflexivity.
Qed.

Lemma hexDecode_two (p q : ascii) (s : string) (a b : N) (bs : list byte) :
  fromHexChar p = Some a -> fromHexChar q = Some b -> hexDecodeString s = inr bs ->
  hexDecodeString (String p (String q s)) = inr (byteOfN (a * 16 + b) :: bs).
Proof. intros Hp Hq Hs. cbn [hexDecodeString]. rewrite Hp, Hq, Hs. reflexivity. Qed.

(** a line [x ++ " " ++ y] with its annotation *)
Lemma gctRecord_annotated (x y annotation : string) (a b : list byte) :
  String.length x = 8 -> String.length y = 8 ->
  hexDecodeString x = inr a -> hexDecodeString y = inr b ->
  gctRecord (addLineAnnotation (x ++ " " ++ y) annotation) = (a ++ b)%list.
Proof.
  intros Lx Ly Ha Hb. destruct (addLineAnnotation_suffix (x ++ " " ++ y) annotation) as [suf E].
  rewrite E, !str_app_assoc. apply gctRecord_fields; assumption.
Qed.

Lemma gctOutputBytes_eq (lines : list string) :
  gctOutputBytes lines = (gctHeader ++ flat_map gctRecord lines ++ gctFooter)%list.
Proof. unfold gctOutputBytes. rewrite gctLoop_app, <- app_assoc. reflexivity. Qed.

Lemma injection_lines_aligned (w : World) (address file : string) (l : list byte) :
  compile w file = ret l -> 2 <= String.length address -> List.length l mod 4 = 0 ->
  List.length l <> 0 ->
  generateInjectionCodeLines w address file
  = (let a2 := substring 2 (String.length address - 2) address in
     if Nat.eqb (List.length l) 4 then
       ret ["04" ++ toUpper a2 ++ " " ++ toUpper (hexEncodeToString l)]
     else
       ret (("C2" ++ toUpper a2 ++ " " ++ formatX08 (N.of_nat (List.length (injectPad l) / 8)))
            :: records8 (injectPad l))).
Proof.
  intros Hc Ha H4 H0.
  assert (Hp : List.length (injectPad l) mod 8 = 0) by (apply injectPad_mod8; exact H4).
  unfold generateInjectionCodeLines, generateInjectionCodeLinesWith.
  change (compileContents w file (readFile w file)) with (compile w file).
  rewrite Hc. cbn [bind ret]. unfold injectionCodeLinesFrom. cbv zeta.
  rewrite (proj2 (Nat.eqb_neq _ 0) H0).
  destruct (Nat.eqb_spec (List.length l) 4) as [E|].
  - rewrite firstn_all2 by lia. unfold generateReplaceCodeLine.
    rewrite (sliceFrom_ok address 2 Ha). reflexivity.
  - rewrite (sliceFrom_ok address 2 Ha). cbn [bind ret].
    rewrite recordLines_aligned by exact Hp. reflexivity.
Qed.

Lemma decode_C2 (a6 : string) (ab : list byte) :
  hexDecodeString a6 = inr ab -> hexDecodeString ("C2" ++ toUpper a6) = inr (xc2 :: ab).
Proof. intro H. apply (hexDecode_two _ _ _ 12 2); [reflexivity|reflexivity|]. apply hexDecode_toUpper, H. Qed.

Lemma decode_04 (a6 : string) (ab : list byte) :
  hexDecodeString a6 = inr ab -> hexDecodeString ("04" ++ toUpper a6) = inr (x04 :: ab).
Proof. intro H. apply (hexDecode_two _ _ _ 0 4); [reflexivity|reflexivity|]. apply hexDecode_toUpper, H. Qed.

Lemma decode_06 (a6 : string) (ab : list byte) :
  hexDecodeString a6 = inr ab -> hexDecodeString ("06" ++ toUpper a6) = inr (x06 :: ab).
Proof. intro H. apply (hexDecode_two _ _ _ 0 6); [reflexivity|reflexivity|]. apply hexDecode_toUpper, H. Qed.

Ltac eval_type_tests :=
  repeat match goal with
  | |- context [String.eqb ?a ?b] =>
      let v := eval vm_compute in (String.eqb a b) in change (String.eqb a b) with v
  end; cbn [orb negb].

(** X1: an Inject code whose 8-character address has a 6-digit hex tail and whose
    compiled code is a non-empty whole number of words is written to the GCT
    file as its 04 line (one word) or as the C2 header byte, the address
    bytes, the record count in 4 big-endian bytes and the padded code. *)
Theorem inject_code_gct (join : string -> string -> string) (w : World) (g : GeckoCode)
  (c0 c1 : ascii) (a6 : string) (ab l : list byte) :
  Type_ g = Inject -> Address g = String c0 (String c1 a6) ->
  String.length a6 = 6 -> hexDecodeString a6 = inr ab ->
  compile w (SourceFile g) = ret l -> List.length l mod 4 = 0 -> List.length l <> 0 ->
  (N.of_nat (List.length (injectPad l) / 8) < 2 ^ 32)%N ->
  exists lines, geckoCodeLines join w g = ret lines /\
    gctOutputBytes lines
    = (gctHeader
       ++ (if Nat.eqb (List.length l) 4 then x04 :: ab ++ l
           else xc2 :: ab ++ beBytes 4 (N.of_nat (List.length (injectPad l) / 8)) ++ injectPad l)
       ++ gctFooter)%list.
Proof.
  intros Ht Hadr L6 Hab Hc H4 H0 Hn.
  unfold geckoCodeLines. rewrite Ht. eval_type_tests.
  rewrite (injection_lines_aligned w (Address g) (SourceFile g) l Hc) by first [assumption | rewrite Hadr; cbn; lia].
  rewrite Hadr. cbn zeta.
  rewrite substring_two.
  destruct (Nat.eqb_spec (List.length l) 4) as [E|E].
  - eexists. cbn [bind ret annotateFirst]. split; [reflexivity|].
    rewrite gctOutputBytes_eq. cbn [flat_map]. f_equal.
    rewrite app_nil_r, <- (str_app_assoc "04" (toUpper a6)).
    rewrite (gctRecord_annotated _ _ _ (x04 :: ab) l); [reflexivity| | | |].
    + rewrite str_length_app, toUpper_length. cbn. lia.
    + rewrite toUpper_length, hexEncode_length. lia.
    + apply decode_04, Hab.
    + apply hexDecode_encode.
  - eexists. cbn [bind ret annotateFirst]. split; [reflexivity|].
    rewrite gctOutputBytes_eq. cbn [flat_map]. f_equal.
    assert (Hp : List.length (injectPad l) mod 8 = 0) by (apply injectPad_mod8; exact H4).
    rewrite (records8_gct (List.length (injectPad l) / 8))
      by (pose proof (Nat.div_mod (List.length (injectPad l)) 8); lia).
    rewrite <- (str_app_assoc "C2" (toUpper a6)).
    rewrite (gctRecord_annotated _ _ _ (xc2 :: ab) (beBytes 4 (N.of_nat (List.length (injectPad l) / 8)))); [|
      rewrite str_length_app, toUpper_length; cbn; lia
    | unfold formatX08; rewrite padLeft_formatX;
        [apply hexFixed_length | exact Hn | eapply N.lt_trans; [exact Hn | reflexivity]]
    | apply decode_C2, Hab
    | apply formatX08_decode, Hn].
    cbn [app]. rewrite <- !app_assoc. reflexivity.
Qed.

(** X2: a ReplaceCodeBlock or ReplaceBinary code over a whole number of words
    is written to the GCT file as 06, the address bytes, the padded length in
    4 big-endian bytes and the padded bytes. *)
Theorem block_code_gct (join : string -> string -> string) (w : World) (g : GeckoCode)
  (c0 c1 : ascii) (a6 : string) (ab l : list byte) :
  (Type_ g = ReplaceCodeBlock /\ compile w (SourceFile g) = ret l
   \/ Type_ g = ReplaceBinary /\ readFile w (SourceFile g) = Some l) ->
  Address g = String c0 (String c1 a6) ->
  String.length a6 = 6 -> hexDecodeString a6 = inr ab ->
  List.length l mod 4 = 0 -> (N.of_nat (List.length (blockPad l)) < 2 ^ 32)%N ->
  exists lines, geckoCodeLines join w g = ret lines /\
    gctOutputBytes lines
    = (gctHeader
       ++ (x06 :: ab ++ beBytes 4 (N.of_nat (List.length (blockPad l))) ++ blockPad l)
       ++ gctFooter)%list.
Proof.
  intros Hsrc Hadr L6 Hab H4 Hn.
  assert (Hb : generateReplaceCodeBlockLines w (Address g) (SourceFile g)
               = blockLinesFrom w (Address g) l
               \/ generateReplaceBinaryLines w (Address g) (SourceFile g)
               = blockLinesFrom w (Address g) l).
  { destruct Hsrc as [[_ Hc]|[_ Hr]].
    - left. unfold generateReplaceCodeBlockLines. rewrite Hc. reflexivity.
    - right. unfold generateReplaceBinaryLines. rewrite Hr. reflexivity. }
  assert (Hl : blockLinesFrom w (Address g) l
               = ret (("06" ++ toUpper a6 ++ " " ++ formatX08 (N.of_nat (List.length (blockPad l))))
                      :: records8 (blockPad l))).
  { rewrite blockLinesFrom_aligned by first [exact H4 | rewrite Hadr; cbn; lia]. rewrite Hadr, substring_two.
    reflexivity. }
  assert (Hp : List.length (blockPad l) mod 8 = 0) by (apply blockPad_mod8; exact H4).
  eexists. split.
  - unfold geckoCodeLines.
    destruct Hsrc as [[Ht Hc]|[Ht Hr]]; rewrite Ht; eval_type_tests.
    + unfold generateReplaceCodeBlockLines. rewrite Hc. cbn [bind ret]. rewrite Hl. cbn [bind annotateFirst].
      reflexivity.
    + unfold generateReplaceBinaryLines. rewrite Hr. cbn [bind ret]. rewrite Hl. cbn [bind annotateFirst].
      reflexivity.
  - rewrite gctOutputBytes_eq. cbn [flat_map]. f_equal.
    rewrite (records8_gct (List.length (blockPad l) / 8))
      by (pose proof (Nat.div_mod (List.length (blockPad l)) 8); lia).
    rewrite <- (str_app_assoc "06" (toUpper a6)).
    rewrite (gctRecord_annotated _ _ _ (x06 :: ab) (beBytes 4 (N.of_nat (List.length (blockPad l))))); [|
      rewrite str_length_app, toUpper_length; cbn; lia
    | unfold formatX08; rewrite padLeft_formatX;
        [apply hexFixed_length | exact Hn | eapply N.lt_trans; [exact Hn | reflexivity]]
    | apply decode_06, Hab
    | apply formatX08_decode, Hn].
    cbn [app]. rewrite <- !app_assoc. reflexivity.
Qed.

(** X3: a Replace code with an 8-digit hex value is written to the GCT file as
    04, the address bytes and the 4 value bytes. *)
Theorem replace_code_gct (join : string -> string -> string) (w : World) (g : GeckoCode)
  (c0 c1 : ascii) (a6 : string) (ab vb : list byte) :
  Type_ g = Replace -> Address g = String c0 (String c1 a6) ->
  String.length a6 = 6 -> hexDecodeString a6 = inr ab ->
  String.length (Value g) = 8 -> hexDecodeString (Value g) = inr vb ->
  exists lines, geckoCodeLines join w g = ret lines /\
    gctOutputBytes lines = (gctHeader ++ (x04 :: ab ++ vb) ++ gctFooter)%list.
Proof.
  intros Ht Hadr L6 Hab L8 Hv.
  eexists. split.
  - unfold geckoCodeLines. rewrite Ht. eval_type_tests.
    unfold generateReplaceCodeLine. rewrite Hadr, sliceFrom_two. reflexivity.
  - rewrite gctOutputBytes_eq. cbn [flat_map]. f_equal.
    rewrite app_nil_r, <- (str_app_assoc "04" (toUpper a6)).
    rewrite (gctRecord_annotated _ _ _ (x04 :: ab) vb); [reflexivity| | | |].
    + rewrite str_length_app, toUpper_length. cbn. lia.
    + rewrite toUpper_length. exact L8.
    + apply decode_04, Hab.
    + apply hexDecode_toUpper, Hv.
Qed.


Lemma digitVal_fromHexChar (c : ascii) (d : N) :
  fromHexChar c = Some d -> digitVal c = Some d /\ (d < 16)%N.
Proof.
  destruct c as [[] [] [] [] [] [] [] []]; vm_compute; intro H;
    try discriminate H; injection H as <-; split; first [reflexivity | lia].
Qed.

Lemma hexValueFrom_ge (s : string) (n v : N) : hexValueFrom s n = Some v -> (n <= v)%N.
Proof.
  revert n; induction s as [|c r IH]; intros n H; cbn [hexValueFrom] in H.
  - injection H as <-. lia.
  - destruct (fromHexChar c) as [d|]; [|discriminate H]. apply IH in H. lia.
Qed.

Lemma parseLoop_hexValue (s : string) (n v : N) :
  (n <= maxVal32)%N -> hexValueFrom s n = Some v ->
  parseLoop s n = if (v <=? maxVal32)%N then (v, None) else (maxVal32, Some ErrRange).
Proof.
  revert n; induction s as [|c r IH]; intros n Hn H; cbn [hexValueFrom] in H.
  - injection H as <-. rewrite (proj2 (N.leb_le _ _) Hn). reflexivity.
  - cbn [parseLoop].
    destruct (fromHexChar c) as [d|] eqn:Ec; [|discriminate H].
    destruct (digitVal_fromHexChar c d Ec) as [-> Hd].
    pose proof (hexValueFrom_ge _ _ _ H) as Hv.
    unfold maxVal32, cutoff16, maxUint64 in *.
    replace (16 <=? d)%N with false by (symmetry; apply N.leb_gt; lia).
    replace (((2 ^ 64 - 1) / 16 + 1) <=? n)%N with false
      by (symmetry; apply N.leb_gt; cbn in Hn |- *; lia).
    rewrite (N.mod_small (n * 16)) by (cbn in Hn |- *; lia).
    rewrite (N.mod_small (n * 16 + d)) by (cbn in Hn |- *; lia).
    replace (n * 16 + d <? n * 16)%N with false by (symmetry; apply N.ltb_ge; lia).
    cbn [orb].
    destruct (N.ltb_spec (2 ^ 32 - 1) (n * 16 + d)) as [Hb|Hb].
    + replace (v <=? 2 ^ 32 - 1)%N with false by (symmetry; apply N.leb_gt; lia). reflexivity.
    + apply IH; assumption.
Qed.

(** X5: ParseUint(s, 16, 32) on a non-empty string of hex digits returns the
    value with no error when it fits 32 bits, and 0xFFFFFFFF with a range
    error otherwise. *)
Theorem parseUint_hexValue (s : string) (v : N) :
  s <> EmptyString -> hexValue s = Some v ->
  parseUint s = if (v <=? maxVal32)%N then (v, None) else (maxVal32, Some ErrRange).
Proof.
  intros Hs H. destruct s as [|c r]; [contradiction|].
  apply (parseLoop_hexValue (String c r) 0 v); [unfold maxVal32; cbn; lia | exact H].
Qed.

Lemma hexValueFrom_lt (s : string) (n v : N) :
  hexValueFrom s n = Some v -> (v < (n + 1) * 16 ^ N.of_nat (String.length s))%N.
Proof.
  revert n; induction s as [|c r IH]; intros n H; cbn [hexValueFrom] in H.
  - injection H as <-. cbn. lia.
  - destruct (fromHexChar c) as [d|] eqn:Ec; [|discriminate H].
    destruct (digitVal_fromHexChar c d Ec) as [_ Hd].
    apply IH in H. cbn [String.length]. rewrite Nat2N.inj_succ, N.pow_succ_r'. nia.
Qed.

Lemma branch_field_mod (va vt k : N) :
  (va < 2 ^ 24)%N ->
  ((subU64 vt va + k) mod 2 ^ 24 = (vt + 2 ^ 24 - va + k) mod 2 ^ 24)%N.
Proof.
  intro Ha. unfold subU64, u64.
  rewrite N.Div0.add_mod, mod64_mod24, <- N.Div0.add_mod.
  replace (vt + 2 ^ 64 - va + k)%N with ((vt + 2 ^ 24 - va + k) + (2 ^ 40 - 1) * 2 ^ 24)%N
    by (cbn in Ha |- *; lia).
  apply N.Div0.mod_add.
Qed.

Lemma decode_48 (u : N) :
  hexDecodeString ("48" ++ hexFixed 6 u) = inr (x48 :: beBytes 3 u).
Proof.
  apply (hexDecode_two _ _ _ 4 8); [reflexivity|reflexivity|].
  apply (hexFixed_decode 3 u).
Qed.

Lemma beBytes_mod (k : nat) (u : N) : beBytes k u = beBytes k (u mod 256 ^ N.of_nat k).
Proof.
  revert u; induction k as [|k IH]; intro u; [reflexivity|].
  cbn [beBytes]. rewrite Nat2N.inj_succ, N.pow_succ_r', N.Div0.mod_mul_r.
  assert (Hd : ((u mod 256 + 256 * (u / 256 mod 256 ^ N.of_nat k)) mod 256 = u mod 256)%N).
  { rewrite (N.mul_comm 256), N.Div0.mod_add, N.Div0.mod_mod; reflexivity. }
  assert (Hq : ((u mod 256 + 256 * (u / 256 mod 256 ^ N.of_nat k)) / 256
                = u / 256 mod 256 ^ N.of_nat k)%N).
  { rewrite (N.mul_comm 256), N.div_add by lia.
    rewrite N.div_small by (apply N.mod_lt; lia). lia. }
  rewrite Hd, Hq, <- IH. reflexivity.
Qed.

(** X4: a Branch or BranchAndLink code with a 6-digit hex address tail and a
    target tail of at most 32 bits is written to the GCT file as 04, the
    address bytes, 48 and the 24-bit field (target - address, plus 1 for
    BranchAndLink) modulo 2^24. *)
Theorem branch_code_gct (join : string -> string -> string) (w : World) (g : GeckoCode)
  (c0 c1 d0 d1 : ascii) (a6 t6 : string) (ab : list byte) (va vt : N) :
  Type_ g = Branch \/ Type_ g = BranchAndLink ->
  Address g = String c0 (String c1 a6) -> TargetAddress g = String d0 (String d1 t6) ->
  String.length a6 = 6 -> hexDecodeString a6 = inr ab -> hexValue a6 = Some va ->
  t6 <> EmptyString -> hexValue t6 = Some vt -> (vt <= maxVal32)%N ->
  exists lines, geckoCodeLines join w g = ret lines /\
    gctOutputBytes lines
    = (gctHeader
       ++ (x04 :: ab ++ x48
             :: beBytes 3 ((vt + 2 ^ 24 - va
                            + (if String.eqb (Type_ g) BranchAndLink then 1 else 0)) mod 2 ^ 24))
       ++ gctFooter)%list.
Proof.
  intros Ht Hadr Htg L6 Hab Hva Ht6 Hvt Hvt32.
  assert (Hva24 : (va < 2 ^ 24)%N).
  { pose proof (hexValueFrom_lt _ _ _ Hva) as H. rewrite L6 in H. exact H. }
  assert (Pa : parseUint a6 = (va, None)).
  { destruct a6 as [|c a]; [discriminate L6|].
    change (parseUint (String c a)) with (parseLoop (String c a) 0).
    rewrite (parseLoop_hexValue (String c a) 0 va); [| unfold maxVal32; cbn; lia | exact Hva].
    replace (va <=? maxVal32)%N with true by (symmetry; apply N.leb_le; unfold maxVal32; cbn in *; lia).
    reflexivity. }
  assert (Pt : parseUint t6 = (vt, None)).
  { destruct t6 as [|c a]; [contradiction|].
    change (parseUint (String c a)) with (parseLoop (String c a) 0).
    rewrite (parseLoop_hexValue (String c a) 0 vt); [| unfold maxVal32; cbn; lia | exact Hvt].
    replace (vt <=? maxVal32)%N with true by (symmetry; apply N.leb_le; exact Hvt32).
    reflexivity. }
  assert (Hline : forall link : bool, generateBranchCodeLine (Address g) (TargetAddress g) link
     = ret ("04" ++ toUpper a6 ++ " " ++ "48"
            ++ hexFixed 6 (if link then u64 (subU64 vt va + 1) else subU64 vt va))).
  { intro link. rewrite generateBranchCodeLine_eq, Hadr, Htg, !sliceFrom_two.
    cbv beta iota delta [ret]. rewrite Pa, Pt. reflexivity. }
  assert (Hgct : forall (link : bool) (ann : string),
     gctOutputBytes [addLineAnnotation ("04" ++ toUpper a6 ++ " " ++ "48"
            ++ hexFixed 6 (if link then u64 (subU64 vt va + 1) else subU64 vt va)) ann]
     = (gctHeader ++ (x04 :: ab ++ x48
             :: beBytes 3 ((vt + 2 ^ 24 - va + (if link then 1 else 0)) mod 2 ^ 24))
       ++ gctFooter)%list).
  { intros link ann. rewrite gctOutputBytes_eq. cbn [flat_map]. f_equal.
    rewrite app_nil_r, <- (str_app_assoc "04" (toUpper a6)).
    rewrite (gctRecord_annotated _ _ _ (x04 :: ab) (x48 :: beBytes 3 (if link then u64 (subU64 vt va + 1) else subU64 vt va)));
      [| rewrite str_length_app, toUpper_length; cbn; lia
       | rewrite str_length_app, hexFixed_length; reflexivity
       | apply decode_04, Hab
       | apply decode_48].
    assert (Hb : beBytes 3 (if link then u64 (subU64 vt va + 1) else subU64 vt va)
                 = beBytes 3 ((vt + 2 ^ 24 - va + (if link then 1 else 0)) mod 2 ^ 24)).
    { rewrite beBytes_mod. symmetry. rewrite beBytes_mod. change (256 ^ N.of_nat 3)%N with (2 ^ 24)%N.
      rewrite N.Div0.mod_mod, <- (branch_field_mod va vt) by exact Hva24.
      destruct link; [unfold u64; rewrite mod64_mod24; reflexivity|].
      rewrite N.add_0_r. reflexivity. }
    rewrite Hb. reflexivity. }
  destruct Ht as [Ht|Ht]; rewrite Ht; eval_type_tests.
  - eexists. split; [| apply (Hgct false)].
    unfold geckoCodeLines. rewrite Ht. eval_type_tests. rewrite Hline. reflexivity.
  - eexists. split; [| apply (Hgct true)].
    unfold geckoCodeLines. rewrite Ht. eval_type_tests. rewrite Hline. reflexivity.
Qed.


Lemma extLoop_app (q s best : string) : exists best', extLoop (q ++ s) best = extLoop s best'.
Proof.
  revert best; induction q as [|c q IH]; intro best; [exists best; reflexivity|].
  cbn [append extLoop].
  destruct (Ascii.eqb c "/"); [apply IH|].
  destruct (Ascii.eqb c "."); apply IH.
Qed.

Lemma extLoop_noDot (s : string) :
  noneOf ["."%char] s = true -> extLoop s "" = "".
Proof.
  induction s as [|c r IH]; intro H; [reflexivity|].
  unfold noneOf in H. cbn [list_ascii_of_string forallb existsb] in H.
  apply andb_prop in H as [Hc Hr]. rewrite orb_false_r in Hc.
  cbn [extLoop]. destruct (Ascii.eqb c "/"); [apply IH, Hr|].
  destruct (Ascii.eqb c "."); cbn in Hc; [discriminate Hc|]. apply IH, Hr.
Qed.

Lemma extLoop_plain (s best : string) :
  noneOf ["."%char; "/"%char] s = true -> extLoop s best = best.
Proof.
  revert best; induction s as [|c r IH]; intros best H; [reflexivity|].
  unfold noneOf in H. cbn [list_ascii_of_string forallb existsb] in H.
  apply andb_prop in H as [Hc Hr]. rewrite orb_false_r in Hc.
  cbn [extLoop]. destruct (Ascii.eqb c "/"), (Ascii.eqb c "."); cbn in Hc;
    try discriminate Hc. apply IH, Hr.
Qed.

(** X12: filepath.Ext returns the last dot and what follows when no dot or
    slash follows it, and the empty string when the last path element (or a
    path without slash) has no dot. *)
Theorem ext_cases (q r : string) :
  (noneOf ["."%char; "/"%char] r = true -> ext (q ++ String "." r) = String "." r) /\
  (noneOf ["."%char] r = true -> ext (q ++ String "/" r) = "") /\
  (noneOf ["."%char] r = true -> ext r = "").
Proof.
  unfold ext. split; [|split]; intro H.
  - destruct (extLoop_app q (String "." r) "") as [b ->].
    cbn [extLoop Ascii.eqb Bool.eqb]. rewrite (extLoop_plain r _ H). reflexivity.
  - destruct (extLoop_app q (String "/" r) "") as [b ->].
    cbn [extLoop]. apply extLoop_noDot, H.
  - apply extLoop_noDot, H.
Qed.

Lemma headerLines_gct (desc : CodeDescription) :
  flat_map gctRecord (generateHeaderLines desc) = [].
Proof.
  unfold generateHeaderLines.
  cbn [flat_map append]. rewrite gctRecord_bad_first by reflexivity. cbn [app].
  induction (Description desc) as [|line rest IH]; [reflexivity|].
  cbn [map flat_map append]. rewrite gctRecord_bad_first by reflexivity. exact IH.
Qed.

(** X9: generateHeaderLines gives one line plus one per description line, and
    none of them adds bytes to the GCT file. *)
Theorem header_lines_no_gct (desc : CodeDescription) :
  List.length (generateHeaderLines desc) = S (List.length (Description desc)) /\
  flat_map gctRecord (generateHeaderLines desc) = [].
Proof.
  unfold generateHeaderLines. split.
  - cbn [List.length]. rewrite length_map. reflexivity.
  - apply headerLines_gct.
Qed.

Lemma buildBody_gct (join : string -> string -> string) (w : World)
  (codes : list CodeDescription) (output : list string) :
  buildBody join w codes = ret output ->
  exists codeLines,
    Forall2 (fun code lines => generateCodeLines join w code = ret lines) codes codeLines /\
    flat_map gctRecord output = flat_map gctRecord (List.concat codeLines).
Proof.
  revert output; induction codes as [|code rest IH]; intros output H; cbn [buildBody] in H.
  - injection H as <-. exists []. split; [constructor | reflexivity].
  - destruct (generateCodeLines join w code) as [f|cl] eqn:Ec; [discriminate H|].
    cbn [bind] in H.
    destruct (buildBody join w rest) as [f|r] eqn:Er; [discriminate H|].
    cbn [bind ret] in H. injection H as <-.
    destruct (IH r eq_refl) as [cls [Hf Hg]].
    exists (cl :: cls). split; [constructor; assumption|].
    change (flat_map gctRecord (generateHeaderLines code ++ cl ++ [""] ++ r)%list
            = flat_map gctRecord (List.concat (cl :: cls))).
    rewrite !flat_map_app, headerLines_gct, Hg. cbn [List.concat flat_map].
    rewrite flat_map_app. reflexivity.
Qed.

Lemma records8_cons8 (m : nat) (r : list byte) :
  8 <= List.length r ->
  records8 (firstn (8 + m) r)
  = recordLine (firstn 4 r) (firstn 4 (skipn 4 r)) :: records8 (firstn m (skipn 8 r)).
Proof.
  intro H. do 8 (destruct r as [|? r]; [cbn in H; lia|]). reflexivity.
Qed.

Lemma recordLoop_bounds (s spare : list byte) (k : nat) :
  forall fuel i, List.length s <= i + 8 * k -> i + 8 * k < List.length s + 8 -> k <= fuel ->
  recordLoop s spare fuel i
  = if Nat.eqb k 0 || Nat.leb (i + 8 * k) (List.length s + List.length spare)
    then ret (records8 (firstn (8 * k) (skipn i (s ++ spare))))
    else fail (Panic "runtime error: slice bounds out of range").
Proof.
  induction k as [|k IH]; intros fuel i H1 H2 Hk.
  - cbn [Nat.eqb orb]. rewrite Nat.mul_0_r. cbn [firstn records8].
    destruct fuel as [|f]; [reflexivity|]. cbn [recordLoop].
    rewrite (proj2 (Nat.ltb_ge _ _)) by lia. reflexivity.
  - destruct fuel as [|f]; [lia|]. cbn [recordLoop].
    rewrite (proj2 (Nat.ltb_lt _ _)) by lia.
    cbn [Nat.eqb orb]. unfold sliceBytes.
    rewrite (proj2 (Nat.leb_le i (i + 4))), (proj2 (Nat.leb_le (i + 4) (i + 8))) by lia.
    cbn [andb].
    destruct (Nat.leb_spec (i + 8) (List.length s + List.length spare)) as [Hin|Hout].
    + rewrite (proj2 (Nat.leb_le (i + 4) _)) by lia.
      cbn [bind ret].
      rewrite (IH f (i + 8)) by lia.
      replace (i + 4 - i) with 4 by lia. replace (i + 8 - (i + 4)) with 4 by lia.
      assert (Ht : 8 <= List.length (skipn i (s ++ spare))) by (rewrite length_skipn, length_app; lia).
      replace (8 * S k) with (8 + 8 * k) by lia.
      rewrite (records8_cons8 (8 * k) _ Ht), !skipn_skipn.
      replace (4 + i) with (i + 4) by lia. replace (8 + i) with (i + 8) by lia.
      destruct k as [|k'].
      * cbn [Nat.eqb orb]. rewrite (proj2 (Nat.leb_le _ _)) by lia. reflexivity.
      * cbn [Nat.eqb orb].
        replace (i + 8 + 8 * S k') with (i + (8 + 8 * S k')) by lia.
        destruct (Nat.leb (i + (8 + 8 * S k')) _); reflexivity.
    + rewrite (proj2 (Nat.leb_gt (i + 8 * S k) _)) by lia.
      destruct (Nat.leb_spec (i + 4) (List.length s + List.length spare)); cbn [andb bind ret];
        reflexivity.
Qed.

(** X6: the record loop succeeds exactly when the length is a multiple of 8 or
    the spare capacity covers the last record; it then returns one line per
    8 bytes of the slice and its spare capacity, rounded up; otherwise it
    panics with a slice bounds error. *)
Theorem recordLines_bounds (s spare : list byte) :
  recordLines s spare
  = if Nat.eqb (List.length s mod 8) 0
       || Nat.leb 8 (List.length s mod 8 + List.length spare)
    then ret (records8 (firstn (8 * ((List.length s + 7) / 8)) (s ++ spare)))
    else fail (Panic "runtime error: slice bounds out of range").
Proof.
  unfold recordLines.
  pose proof (Nat.div_mod (List.length s) 8) as Hd.
  pose proof (Nat.mod_upper_bound (List.length s) 8) as Hm.
  rewrite (recordLoop_bounds s spare ((List.length s + 7) / 8)) by
    (pose proof (Nat.div_mod (List.length s + 7) 8); pose proof (Nat.mod_upper_bound (List.length s + 7) 8); lia).
  cbn [skipn].
  replace (Nat.eqb ((List.length s + 7) / 8) 0
           || Nat.leb (0 + 8 * ((List.length s + 7) / 8)) (List.length s + List.length spare))
    with (Nat.eqb (List.length s mod 8) 0
          || Nat.leb 8 (List.length s mod 8 + List.length spare)); [reflexivity|].
  pose proof (Nat.div_mod (List.length s + 7) 8). pose proof (Nat.mod_upper_bound (List.length s + 7) 8).
  destruct (Nat.eqb_spec (List.length s mod 8) 0) as [E|E];
    destruct (Nat.eqb_spec ((List.length s + 7) / 8) 0) as [E'|E']; cbn [orb];
    [reflexivity | symmetry; apply Nat.leb_le; lia | | ].
  - lia.
  - destruct (Nat.leb_spec 8 (List.length s mod 8 + List.length spare));
      symmetry; [apply Nat.leb_le | apply Nat.leb_gt]; lia.
Qed.

Lemma indexByte_app (b : byte) (a r : list byte) :
  ~ In b a -> indexByte b (a ++ r) = option_map (fun k => List.length a + k) (indexByte b r).
Proof.
  induction a as [|c a IH]; intro H; cbn [app indexByte List.length].
  - destruct (indexByte b r); reflexivity.
  - destruct (Byte.eqb c b) eqn:E; [exfalso; apply H; left; apply Byte.byte_dec_bl, E|].
    rewrite IH by (intro Hi; apply H; right; exact Hi).
    destruct (indexByte b r); reflexivity.
Qed.

Lemma indexByte_none (b : byte) (a : list byte) : ~ In b a -> indexByte b a = None.
Proof.
  intro H. rewrite <- (app_nil_r a), indexByte_app by exact H. reflexivity.
Qed.

Lemma dropCR_plain (l : list byte) : ~ In x0d l -> dropCR l = l.
Proof.
  intro H. unfold dropCR. destruct (rev l) as [|c r] eqn:E; [reflexivity|].
  destruct c; try reflexivity.
  exfalso. apply H, in_rev. rewrite E. left. reflexivity.
Qed.

Lemma dropCR_cr (l : list byte) : dropCR (l ++ [x0d]) = l.
Proof. unfold dropCR. rewrite rev_app_distr. cbn. apply rev_involutive. Qed.

(** X13: a first line with no CR or LF that fits the scanner buffer reads the
    same whether it ends in LF, in CR LF or at the end of the file. *)
Theorem scanFirstLine_line_endings (line rest : list byte) :
  ~ In x0a line -> ~ In x0d line -> List.length line + 1 < maxTokenSize ->
  scanFirstLine (line ++ x0a :: rest) = string_of_list_byte line /\
  scanFirstLine (line ++ x0d :: x0a :: rest) = string_of_list_byte line /\
  scanFirstLine line = string_of_list_byte line.
Proof.
  intros Hn Hr Hl. unfold scanFirstLine. split; [|split].
  - rewrite indexByte_app by exact Hn. cbn [indexByte]. change (Byte.eqb x0a x0a) with true. cbn [option_map].
    rewrite Nat.add_0_r, (proj2 (Nat.ltb_lt _ _)) by lia.
    rewrite firstn_app, firstn_all, Nat.sub_diag. cbn [firstn]. rewrite app_nil_r.
    rewrite dropCR_plain by exact Hr. reflexivity.
  - assert (Hn' : ~ In x0a (line ++ [x0d])).
    { rewrite in_app_iff. intros [H|[H|H]]; [exact (Hn H) | discriminate H | exact H]. }
    replace (line ++ x0d :: x0a :: rest)%list with ((line ++ [x0d]) ++ x0a :: rest)%list
      by (rewrite <- app_assoc; reflexivity).
    rewrite indexByte_app by exact Hn'. cbn [indexByte]. change (Byte.eqb x0a x0a) with true. cbn [option_map].
    rewrite length_app, Nat.add_0_r. cbn [List.length]. rewrite (proj2 (Nat.ltb_lt _ _)) by lia.
    rewrite firstn_app, firstn_all2 by (rewrite length_app; cbn [List.length]; lia).
    replace (List.length line + 1 - List.length (line ++ [x0d])) with 0
      by (rewrite length_app; cbn [List.length]; lia).
    cbn [firstn]. rewrite app_nil_r.
    rewrite dropCR_cr. reflexivity.
  - rewrite indexByte_none by exact Hn. rewrite (proj2 (Nat.ltb_lt _ _)) by lia.
    rewrite dropCR_plain by exact Hr. reflexivity.
Qed.

Lemma scanFirstLine_too_long (d : list byte) :
  maxTokenSize <= List.length d -> ~ In x0a (firstn maxTokenSize d) -> scanFirstLine d = "".
Proof.
  intros Hl Hn. unfold scanFirstLine.
  rewrite <- (firstn_skipn maxTokenSize d), indexByte_app by exact Hn.
  rewrite length_firstn, Nat.min_l by exact Hl.
  destruct (indexByte x0a (skipn maxTokenSize d)); cbn [option_map].
  - rewrite (proj2 (Nat.ltb_ge _ _)) by lia. reflexivity.
  - rewrite length_app, length_firstn, Nat.min_l by exact Hl.
    rewrite (proj2 (Nat.ltb_ge _ _)) by lia. reflexivity.
Qed.

(** X14: a .asm file with no line feed in its first 64 KiB fails the address
    check with the error that names its path. *)
Theorem asm_long_first_line_fails (join : string -> string -> string) (w : World)
  (folder name : string) (d : list byte) :
  maxTokenSize <= List.length d -> ~ In x0a (firstn maxTokenSize d) ->
  asmEntryLines join w folder name (NFile (Some d))
  = fail (Panic (addressErrorText (join folder name) "")).
Proof.
  intros Hl Hn. unfold asmEntryLines. cbn [bind ret].
  rewrite (scanFirstLine_too_long d Hl Hn). reflexivity.
Qed.

Lemma addLineAnnotation_fields (line annotation : string) :
  17 <= String.length line ->
  gctFields (addLineAnnotation line annotation) = gctFields line.
Proof.
  intro H. destruct (addLineAnnotation_suffix line annotation) as [suffix ->].
  unfold gctFields. rewrite str_length_app.
  rewrite (proj2 (Nat.ltb_ge _ _)) by lia. rewrite (proj2 (Nat.ltb_ge _ _)) by lia.
  assert (Hs : forall n m, n + m <= String.length line ->
               substring n m (line ++ suffix) = substring n m line).
  { clear H. induction line as [|c line IH]; intros n m Hnm.
    - cbn in Hnm. destruct n, m; try lia. destruct suffix; reflexivity.
    - destruct n as [|n]; [destruct m as [|m]|]; cbn [append substring String.length] in *;
        [reflexivity | f_equal; apply IH; lia | apply IH; lia]. }
  rewrite !Hs by lia. reflexivity.
Qed.

(** X8: an annotation never changes the bytes the GCT writer takes from a line
    of at least 17 characters. *)
Theorem annotation_keeps_gct (line annotation : string) :
  17 <= String.length line -> gctRecord (addLineAnnotation line annotation) = gctRecord line.
Proof. intro H. unfold gctRecord. rewrite addLineAnnotation_fields by exact H. reflexivity. Qed.


Lemma splitNL_nonempty (s : string) : exists x xs, splitNL s = x :: xs.
Proof.
  induction s as [|c r [x [xs IH]]]; [exists "", []; reflexivity|].
  cbn [splitNL]. rewrite IH. destruct (Ascii.eqb c _); eexists; eexists; reflexivity.
Qed.

Lemma splitNL_app (a s : string) :
  noneOf [ascii_of_nat 10] a = true ->
  splitNL (a ++ s) = match splitNL s with [] => [a] | x :: xs => (a ++ x) :: xs end.
Proof.
  induction a as [|c a IH]; intro H.
  - cbn [append]. destruct (splitNL_nonempty s) as [x [xs ->]]. reflexivity.
  - unfold noneOf in H. cbn [list_ascii_of_string forallb existsb] in H.
    apply andb_prop in H as [Hc Ha]. rewrite orb_false_r in Hc.
    cbn [append splitNL]. destruct (Ascii.eqb c _); [discriminate Hc|].
    rewrite (IH Ha). destruct (splitNL_nonempty s) as [x [xs ->]]. reflexivity.
Qed.

(** X11: splitting a text output file at line feeds gives back the output
    lines, when there is at least one and none contains a line feed. *)
Theorem text_output_lines (output : list string) :
  output <> [] -> Forall (fun line => noneOf [ascii_of_nat 10] line = true) output ->
  splitNL (string_of_list_byte (textOutputBytes output)) = output.
Proof.
  intros Hne Hf. unfold textOutputBytes. rewrite string_of_list_byte_of_string.
  induction Hf as [|line rest Hl Hf IH]; [contradiction|].
  destruct rest as [|line' rest'].
  - cbn [String.concat]. rewrite <- (str_app_nil_r line) at 1. rewrite splitNL_app by exact Hl.
    cbn [splitNL]. rewrite str_app_nil_r. reflexivity.
  - change (String.concat nl (line :: line' :: rest'))
      with (line ++ nl ++ String.concat nl (line' :: rest'))%string.
    rewrite splitNL_app by exact Hl. cbn [nl append splitNL].
    change (Ascii.eqb (ascii_of_nat 10) (ascii_of_nat 10)) with true. cbv iota.
    rewrite IH by discriminate. rewrite str_app_nil_r. reflexivity.
Qed.

Lemma runBuild_ok (join : string -> string -> string) (args : list string) (w : World)
  (config : Config) (output : list string) :
  runBuild join args w = ret (config, output) ->
  configFile w = Some config /\ buildBody join w (Codes config) = ret output.
Proof.
  unfold runBuild, readConfigFile.
  destruct (Nat.ltb _ 2); [discriminate|]. destruct (negb _); [discriminate|].
  destruct (configFile w) as [c|]; [|discriminate]. cbn [bind ret].
  destruct (Nat.ltb (List.length (OutputFiles c)) 1); [discriminate|].
  destruct (buildBody join w (Codes c)) as [f|o] eqn:Eb; [discriminate|].
  cbn [bind ret]. intro H. injection H as <- <-. split; [reflexivity | exact Eb].
Qed.

(** X10: every .gct file main writes is one of the configured output files,
    writable, and holds the GCT header, the bytes of the code lines of every
    code description in order and the footer. *)
Theorem main_gct_file (join : string -> string -> string) (args : list string) (w : World)
  (file : string) (bytes : list byte) :
  In (file, bytes) (writtenFiles (main join args w)) -> ext file = ".gct" ->
  exists config codeLines,
    configFile w = Some config /\ In file (OutputFiles config) /\ writable w file = true /\
    Forall2 (fun code lines => generateCodeLines join w code = ret lines) (Codes config) codeLines /\
    bytes = (gctHeader ++ flat_map gctRecord (List.concat codeLines) ++ gctFooter)%list.
Proof.
  intros Hin Hext. unfold main in Hin.
  destruct (runBuild join args w) as [[m|code]|[config output]] eqn:Er;
    cbn [writtenFiles] in Hin; try contradiction.
  destruct (runBuild_ok join args w config output Er) as [Hc Hb].
  apply in_flat_map in Hin as [f [Hf Hw]].
  unfold writeOutput in Hw. destruct (writable w f) eqn:Ewr; [|contradiction].
  destruct Hw as [Hw|[]]. injection Hw as E1 E2. subst f.
  rewrite Hext in E2. cbn [String.eqb Ascii.eqb Bool.eqb andb] in E2. subst bytes.
  destruct (buildBody_gct join w (Codes config) output Hb) as [cls [Hcls Hg]].
  exists config, cls. repeat split; try assumption.
  rewrite gctOutputBytes_eq, Hg. reflexivity.
Qed.

(** X7: on a whole number of records the record loop gives length/8 lines,
    and the GCT reader turns them back into the same bytes. *)
Theorem recordLines_gct_roundtrip (s spare : list byte) :
  List.length s mod 8 = 0 ->
  exists lines, recordLines s spare = ret lines /\ List.length lines = List.length s / 8 /\
    flat_map gctRecord lines = s.
Proof.
  intro H. exists (records8 s). split; [apply recordLines_aligned, H|]. split.
  - apply records8_aligned_length, H.
  - apply (records8_gct (List.length s / 8)).
    pose proof (Nat.div_mod (List.length s) 8). lia.
Qed.

(** ** Instances of the further properties *)

Lemma inject_code_gct_witness :
  compile blrWorld "f.asm" = ret blrCode /\
  exists lines, geckoCodeLines slashJoin blrWorld blrInject = ret lines /\
    gctOutputBytes lines
    = (gctHeader ++ [xc2; x00; x12; x34; x00; x00; x00; x02] ++ blrCode
       ++ [x60; x00; x00; x00; x00; x00; x00; x00] ++ gctFooter)%list.
Proof.
  split; [reflexivity|].
  destruct (inject_code_gct slashJoin blrWorld blrInject "8" "0" "001234" [x00; x12; x34] blrCode
              eq_refl eq_refl eq_refl eq_refl eq_refl eq_refl ltac:(discriminate)
              ltac:(vm_compute; reflexivity)) as [lines [H1 H2]].
  exists lines. split; [exact H1|]. rewrite H2. vm_compute. reflexivity.
Defined.

Lemma block_code_gct_witness :
  readFile blrWorld "b.bin" = Some blrCode /\
  exists lines, geckoCodeLines slashJoin blrWorld blrBinary = ret lines /\
    gctOutputBytes lines
    = (gctHeader ++ [x06; x00; x12; x34; x00; x00; x00; x08] ++ blrCode ++ gctFooter)%list.
Proof.
  split; [reflexivity|].
  destruct (block_code_gct slashJoin blrWorld blrBinary "8" "0" "001234" [x00; x12; x34] blrCode
              (or_intror (conj eq_refl eq_refl)) eq_refl eq_refl eq_refl eq_refl
              ltac:(vm_compute; reflexivity)) as [lines [H1 H2]].
  exists lines. split; [exact H1|]. rewrite H2. vm_compute. reflexivity.
Defined.

Lemma replace_code_gct_witness :
  hexDecodeString (Value liReplace) = inr [x38; x60; x00; x01] /\
  exists lines, geckoCodeLines slashJoin blrWorld liReplace = ret lines /\
    gctOutputBytes lines
    = (gctHeader ++ [x04; x00; x12; x34; x38; x60; x00; x01] ++ gctFooter)%list.
Proof.
  split; [reflexivity|].
  exact (replace_code_gct slashJoin blrWorld liReplace "8" "0" "001234" [x00; x12; x34]
           [x38; x60; x00; x01] eq_refl eq_refl eq_refl eq_refl eq_refl eq_refl).
Defined.

Lemma branch_code_gct_witness :
  hexValue "001000" = Some 4096%N /\ hexValue "000000" = Some 0%N /\
  exists lines, geckoCodeLines slashJoin blrWorld backLink = ret lines /\
    gctOutputBytes lines
    = (gctHeader ++ [x04; x00; x10; x00; x48; xff; xf0; x01] ++ gctFooter)%list.
Proof.
  split; [reflexivity|]. split; [reflexivity|].
  destruct (branch_code_gct slashJoin blrWorld backLink "8" "0" "8" "0" "001000" "000000"
              [x00; x10; x00] 4096 0 (or_intror eq_refl) eq_refl eq_refl eq_refl eq_refl eq_refl
              ltac:(discriminate) eq_refl ltac:(vm_compute; discriminate)) as [lines [H1 H2]].
  exists lines. split; [exact H1|]. rewrite H2. vm_compute. reflexivity.
Defined.

Lemma parseUint_hexValue_witness :
  hexValue "80001234" = Some 2147488308%N /\ parseUint "80001234" = (2147488308%N, None) /\
  hexValue "123456789" = Some 4886718345%N /\ parseUint "123456789" = (maxVal32, Some ErrRange).
Proof.
  split; [reflexivity|]. split.
  - exact (parseUint_hexValue "80001234" 2147488308 ltac:(discriminate) eq_refl).
  - split; [reflexivity|].
    exact (parseUint_hexValue "123456789" 4886718345 ltac:(discriminate) eq_refl).
Defined.

Lemma ext_cases_witness :
  ext "mods/cheat.asm" = ".asm" /\ ext "mods.d/cheat" = "" /\ ext "cheat" = "".
Proof.
  split; [exact (proj1 (ext_cases "mods/cheat" "asm") eq_refl)|].
  split; [exact (proj1 (proj2 (ext_cases "mods.d" "cheat")) eq_refl)|].
  exact (proj2 (proj2 (ext_cases "" "cheat")) eq_refl).
Defined.

Lemma recordLines_gct_roundtrip_witness :
  List.length blrCode mod 8 = 0 /\
  exists lines, recordLines blrCode [] = ret lines /\ List.length lines = 1 /\
    flat_map gctRecord lines = blrCode.
Proof.
  split; [reflexivity|]. exact (recordLines_gct_roundtrip blrCode [] eq_refl).
Defined.

Lemma scanFirstLine_line_endings_witness :
  scanFirstLine (list_byte_of_string "# at 80001234" ++ [x0d; x0a; x62])
  = "# at 80001234".
Proof.
  exact (proj1 (proj2 (scanFirstLine_line_endings (list_byte_of_string "# at 80001234") [x62]
                         ltac:(vm_compute; intuition discriminate)
                         ltac:(vm_compute; intuition discriminate)
                         ltac:(apply Nat.ltb_lt; vm_compute; reflexivity)))).
Defined.

Lemma asm_long_first_line_fails_witness :
  asmEntryLines slashJoin blrWorld "f" "a.asm" (NFile (Some (repeat x20 maxTokenSize)))
  = fail (Panic (addressErrorText "f/a.asm" "")).
Proof.
  apply asm_long_first_line_fails.
  - rewrite repeat_length. reflexivity.
  - rewrite firstn_all2 by (rewrite repeat_length; reflexivity).
    intro H. apply repeat_spec in H. discriminate H.
Defined.

Lemma annotation_keeps_gct_witness :
  17 <= String.length "C2001234 00000002" /\
  gctRecord (addLineAnnotation "C2001234 00000002" "moon jump")
  = [xc2; x00; x12; x34; x00; x00; x00; x02].
Proof.
  split; [cbn; lia|].
  rewrite (annotation_keeps_gct "C2001234 00000002" "moon jump" ltac:(cbn; lia)).
  reflexivity.
Defined.

Lemma text_output_lines_witness :
  splitNL (string_of_list_byte (textOutputBytes ["$Test [A]"; "04001234 38600001"; ""]))
  = ["$Test [A]"; "04001234 38600001"; ""].
Proof.
  apply text_output_lines; [discriminate|].
  repeat constructor.
Defined.

Lemma main_gct_file_witness :
  In ("codes.gct", (gctHeader ++ [xc2; x00; x12; x34; x00; x00; x00; x02] ++ blrCode
                    ++ [x60; x00; x00; x00; x00; x00; x00; x00]
                    ++ [x04; x00; x12; x34; x38; x60; x00; x01] ++ gctFooter)%list)
     (writtenFiles (main slashJoin ["gecko"; "build"] gctWorld)) /\
  exists config codeLines,
    configFile gctWorld = Some config /\ In "codes.gct" (OutputFiles config) /\
    writable gctWorld "codes.gct" = true /\
    Forall2 (fun code lines => generateCodeLines slashJoin gctWorld code = ret lines)
      (Codes config) codeLines /\
    (gctHeader ++ [xc2; x00; x12; x34; x00; x00; x00; x02] ++ blrCode
     ++ [x60; x00; x00; x00; x00; x00; x00; x00]
     ++ [x04; x00; x12; x34; x38; x60; x00; x01] ++ gctFooter)%list
    = (gctHeader ++ flat_map gctRecord (List.concat codeLines) ++ gctFooter)%list.
Proof.
  assert (H : In ("codes.gct", (gctHeader ++ [xc2; x00; x12; x34; x00; x00; x00; x02] ++ blrCode
                    ++ [x60; x00; x00; x00; x00; x00; x00; x00]
                    ++ [x04; x00; x12; x34; x38; x60; x00; x01] ++ gctFooter)%list)
     (writtenFiles (main slashJoin ["gecko"; "build"] gctWorld)))
    by (vm_compute; left; reflexivity).
  split; [exact H|].
  exact (main_gct_file slashJoin ["gecko"; "build"] gctWorld "codes.gct" _ H eq_refl).
Defined.
